(** * voicescribe-ai: from the recording to the summary

    A shallow embedding of [utils/summarizer.py] (class
    [HuggingFaceSummarizer]) and of [utils/transcription.py] (class
    [WhisperTranscriber]), with the properties of the chunker, the
    summarisation driver, the post-processor and the transcription adapter;
    and of the audio preparation of [utils/audio_processor.py] and the text
    markup of [utils/pdf_generator.py].

    Conventions of the embedding.
    - A Python [str] is a [string]; the model is exact on ASCII text.  The
      bullet U+2022 that the code writes is kept as its three UTF-8 bytes:
      none of them is a word or a white-space byte, as U+2022 itself is
      neither for Python.
    - A Python [int] is a [Z]; [len] is [String.length] or [length].
    - A Python [dict] with string keys is a [gmap string _].
    - A call that may raise has an [outcome]; a method that also reads or
      writes [self], or talks to streamlit, lives in the monad [M]. Only
      subclasses of [Exception] are modelled: they are the ones that
      [except Exception] catches.
    - The pretrained models (tokenizer, summarisation pipeline, whisper) are
      external: they are records of functions, and their loaders are
      variables of a section.  So is pydub. *)

From Stdlib Require Import ZArith Lia Ascii String.
From stdpp Require Import base strings list gmap.

Local Open Scope Z_scope.
Local Open Scope nat_scope.

(** ** Python strings *)

Module Py.

Definition ord (c : ascii) : N := N_of_ascii c.

Definition between (lo hi : N) (c : ascii) : bool :=
  ((lo <=? ord c) && (ord c <=? hi))%N.

(** [str.isspace] on one character, which is also [\s] of [re] on [str]
    patterns: TAB..CR, FS..US and the space. *)
Definition isspace (c : ascii) : bool :=
  between 9 13 c || between 28 32 c.

Definition isupper (c : ascii) : bool := between 65 90 c.
Definition islower (c : ascii) : bool := between 97 122 c.
Definition isdigit (c : ascii) : bool := between 48 57 c.

(** [\w] of [re]: letters, digits and the underscore. *)
Definition isword (c : ascii) : bool :=
  isupper c || islower c || isdigit c || (ord c =? 95)%N.

(** [str.lower] on one character. *)
Definition lower (c : ascii) : ascii :=
  if isupper c then ascii_of_N (ord c + 32) else c.

(** [c in chars] for a character. *)
Fixpoint mem (c : ascii) (chars : string) : bool :=
  match chars with
  | EmptyString => false
  | String d chars' => Ascii.eqb c d || mem c chars'
  end.

Fixpoint lstrip (s : string) : string :=
  match s with
  | EmptyString => EmptyString
  | String c s' => if isspace c then lstrip s' else s
  end.

Fixpoint rstrip (s : string) : string :=
  match s with
  | EmptyString => EmptyString
  | String c s' =>
      match rstrip s' with
      | EmptyString => if isspace c then EmptyString else String c EmptyString
      | r => String c r
      end
  end.

(** [s.strip()] *)
Definition strip (s : string) : string := rstrip (lstrip s).

(** [s[:n]] for a natural [n] *)
Fixpoint slice_to (n : nat) (s : string) : string :=
  match n, s with
  | S n', String c s' => String c (slice_to n' s')
  | _, _ => EmptyString
  end.

Fixpoint startswith (p s : string) : bool :=
  match p, s with
  | EmptyString, _ => true
  | String a p', String b s' => Ascii.eqb a b && startswith p' s'
  | String _ _, EmptyString => false
  end.

(** [needle in hay] for strings *)
Fixpoint contains (needle hay : string) : bool :=
  startswith needle hay ||
  match hay with
  | EmptyString => false
  | String _ hay' => contains needle hay'
  end.

(** [sep.join(parts)] *)
Fixpoint join (sep : string) (parts : list string) : string :=
  match parts with
  | [] => EmptyString
  | [p] => p
  | p :: ps => p +:+ sep +:+ join sep ps
  end.

(** Truth value of a string: [if s:] *)
Definition truthy (s : string) : bool :=
  match s with EmptyString => false | _ => true end.

End Py.

(** ** The fragment of [re] that the program uses

    Every pattern of the program is a sequence of items, each a character
    class, a greedy [+] of a character class, a one-character capturing
    group, or the word boundary [\b]. *)

Module Re.

Inductive item :=
| Chr (p : ascii → bool)      (* one character of a class *)
| Cap (p : ascii → bool)      (* the same inside a capturing group *)
| Plus (p : ascii → bool)     (* class+, greedy *)
| Bnd.                        (* \b *)

Definition pattern := list item.

Definition word_of (o : option ascii) : bool :=
  match o with Some c => Py.isword c | None => false end.

Definition next (s : string) : option ascii :=
  match s with String c _ => Some c | EmptyString => None end.

(** [\b] holds between [prev] and the rest [s] *)
Definition boundary (prev : option ascii) (s : string) : bool :=
  xorb (word_of prev) (word_of (next s)).

Definition found := (string * list string)%type. (* whole match, groups *)

Definition eat (c : ascii) (grp : list string) (r : option found) : option found :=
  match r with
  | Some (w, g) => Some (String c w, grp ++ g)
  | None => None
  end.

(** Match the pattern at the head of [s]; [prev] is the character before.
    [Plus] first tries to take one more character and gives it back when
    the rest of the pattern fails, as the backtracking matcher does. *)
Fixpoint match_at (pat : pattern) : option ascii → string → option found :=
  match pat with
  | [] => λ _ _, Some (EmptyString, [])
  | it :: pat' =>
      let k := match_at pat' in
      match it with
      | Chr p => λ _ s,
          match s with
          | String c s' => if p c then eat c [] (k (Some c) s') else None
          | EmptyString => None
          end
      | Cap p => λ _ s,
          match s with
          | String c s' =>
              if p c then eat c [String c EmptyString] (k (Some c) s') else None
          | EmptyString => None
          end
      | Plus p => λ _,
          fix more (s : string) : option found :=
            match s with
            | String c s' =>
                if p c then
                  match more s' with
                  | Some (w, g) => Some (String c w, g)
                  | None => eat c [] (k (Some c) s')
                  end
                else None
            | EmptyString => None
            end
      | Bnd => λ prev s, if boundary prev s then k prev s else None
      end
  end.

(** What a left-to-right scan of the subject sees: characters outside any
    match, and the matches. *)
Inductive piece :=
| Lit (c : ascii)
| Hit (whole : string) (groups : list string).

(** The scan of [finditer]: try at the current position, after a match go
    on behind it.  [skip] counts the characters of the running match that
    are still to be passed over. *)
Fixpoint scan (pat : pattern) (prev : option ascii) (s : string) (skip : nat)
  : list piece :=
  match s with
  | EmptyString =>
      match skip, match_at pat prev EmptyString with
      | 0, Some (w, g) => [Hit w g]
      | _, _ => []
      end
  | String c s' =>
      match skip with
      | S k => scan pat (Some c) s' k
      | 0 =>
          match match_at pat prev s with
          | Some (w, g) =>
              match String.length w with
              | 0 => Hit w g :: Lit c :: scan pat (Some c) s' 0
              | S k => Hit w g :: scan pat (Some c) s' k
              end
          | None => Lit c :: scan pat (Some c) s' 0
          end
      end
  end.

Definition pieces (pat : pattern) (s : string) : list piece :=
  scan pat None s 0.

(** [re.findall(pat, s)] for a pattern without groups *)
Fixpoint wholes (ps : list piece) : list string :=
  match ps with
  | [] => []
  | Lit _ :: ps' => wholes ps'
  | Hit w _ :: ps' => w :: wholes ps'
  end.

Definition findall (pat : pattern) (s : string) : list string :=
  wholes (pieces pat s).

(** A replacement template: text and group references [\1], [\2], ... *)
Inductive rpart :=
| RText (t : string)
| RGroup (n : nat).

Fixpoint expand (repl : list rpart) (groups : list string) : string :=
  match repl with
  | [] => EmptyString
  | RText t :: repl' => t +:+ expand repl' groups
  | RGroup n :: repl' =>
      default EmptyString (groups !! pred n) +:+ expand repl' groups
  end.

Fixpoint replace (repl : list rpart) (ps : list piece) : string :=
  match ps with
  | [] => EmptyString
  | Lit c :: ps' => String c (replace repl ps')
  | Hit _ g :: ps' => expand repl g +:+ replace repl ps'
  end.

(** [re.sub(pat, repl, s)] *)
Definition sub (pat : pattern) (repl : list rpart) (s : string) : string :=
  replace repl (pieces pat s).

(** The text before the first match, and the texts after each match. *)
Fixpoint fragments (ps : list piece) : string * list string :=
  match ps with
  | [] => (EmptyString, [])
  | Lit c :: ps' => let '(f, r) := fragments ps' in (String c f, r)
  | Hit _ _ :: ps' => let '(f, r) := fragments ps' in (EmptyString, f :: r)
  end.

(** [re.split(pat, s)] for a pattern without groups *)
Definition split (pat : pattern) (s : string) : list string :=
  let '(f, r) := fragments (pieces pat s) in f :: r.

(** Pattern builders *)
Definition one_of (chars : string) : ascii → bool := λ c, Py.mem c chars.

Definition same (a : ascii) : ascii → bool := λ c, Ascii.eqb c a.

(** a literal character under [re.IGNORECASE] *)
Definition same_ci (a : ascii) : ascii → bool :=
  λ c, Ascii.eqb (Py.lower c) (Py.lower a).

Fixpoint lit (t : string) : pattern :=
  match t with
  | EmptyString => []
  | String a t' => Chr (same a) :: lit t'
  end.

Fixpoint lit_ci (t : string) : pattern :=
  match t with
  | EmptyString => []
  | String a t' => Chr (same_ci a) :: lit_ci t'
  end.

End Re.

(** ** Exceptions, streamlit messages and the monad of methods *)

Module Eff.

(** An instance of a subclass of [Exception]: its class, and [str(e)] *)
Inductive exn := Exn (kind : string) (msg : string).

Definition str (e : exn) : string := match e with Exn _ m => m end.

Inductive outcome (A : Type) :=
| Return (a : A)
| Raise (e : exn).
Global Arguments Return {A} a.
Global Arguments Raise {A} e.

(** What a run leaves behind outside of [self] *)
Inductive event :=
| StError (msg : string)                (* st.error(msg) *)
| StWarning (msg : string)              (* st.warning(msg) *)
| LoadModel                             (* a call of load_model *)
| ModelCall (text : string) (max_length min_length : Z)
                                        (* a call of the summarisation pipeline *)
| WhisperCall (path : string) (language : option string).
                                        (* a call of model.transcribe *)

(** A method on an object with fields [S] *)
Definition M (S A : Type) : Type := S → outcome A * S * list event.

Definition ret {S A} (a : A) : M S A := λ s, (Return a, s, []).

Definition raise {S A} (e : exn) : M S A := λ s, (Raise e, s, []).

Definition bind {S A B} (m : M S A) (k : A → M S B) : M S B :=
  λ s,
    match m s with
    | (Return a, s', ev) =>
        let '(r, s'', ev') := k a s' in (r, s'', ev ++ ev')
    | (Raise e, s', ev) => (Raise e, s', ev)
    end.

(** [try: m  except Exception as e: h e] *)
Definition try_except {S A} (m : M S A) (h : exn → M S A) : M S A :=
  λ s,
    match m s with
    | (Return a, s', ev) => (Return a, s', ev)
    | (Raise e, s', ev) =>
        let '(r, s'', ev') := h e s' in (r, s'', ev ++ ev')
    end.

Definition get {S} : M S S := λ s, (Return s, s, []).
Definition put {S} (s : S) : M S () := λ _, (Return (), s, []).
Definition emit {S} (e : event) : M S () := λ s, (Return (), s, [e]).

Definition lift {S A} (o : outcome A) : M S A := λ s, (o, s, []).

(** the same for code that touches neither [self] nor streamlit *)
Definition obind {A B} (o : outcome A) (k : A → outcome B) : outcome B :=
  match o with
  | Return a => k a
  | Raise e => Raise e
  end.

(** [d[key]] *)
Definition getitem {V} (d : gmap string V) (key : string) : outcome V :=
  match d !! key with
  | Some v => Return v
  | None => Raise (Exn "KeyError" ("'" +:+ key +:+ "'"))
  end.

(** what a run returns or raises, without the state and the trace *)
Definition result {S A} (r : outcome A * S * list event) : outcome A := r.1.1.

End Eff.

Declare Scope py_scope.
Delimit Scope py_scope with py.
Notation "x <- m ;; k" := (Eff.bind m (λ x, k))
  (at level 100, m at next level, right associativity) : py_scope.
Notation "m ;; k" := (Eff.bind m (λ _, k))
  (at level 100, right associativity) : py_scope.
Notation "x <~ o ;; k" := (Eff.obind o (λ x, k))
  (at level 100, o at next level, right associativity) : py_scope.

(** ** [utils/summarizer.py] *)

Module Summarizer.
Import Eff.
Local Open Scope py_scope.

(** The tokenizer of the summarisation model, as far as the code uses it. *)
Record Tokenizer := {
  (* tokenizer.encode(text, truncation=False) *)
  encode : string → outcome (list nat);
  (* tokenizer.encode(text, max_length=n, truncation=True) *)
  encode_truncated : string → Z → outcome (list nat);
  (* tokenizer.decode(tokens) *)
  decode : list nat → outcome string
}.

(** The summarisation pipeline; a call gives a list of dictionaries.  The
    decoding arguments of the call are constants: [do_sample=False],
    [num_beams=4], [length_penalty=2.0], [early_stopping=True]. *)
Record Pipeline := {
  (* pipeline(text, max_length=.., min_length=.., ...) *)
  run : string → Z → Z → outcome (list (gmap string string))
}.

(** The fields of [self] that the methods read and write *)
Record Self := {
  summarizer : option Pipeline;
  tokenizer : option Tokenizer
}.

(** [__init__] leaves both fields at [None]: it drops what [load_model]
    returns. *)
Definition init : Self := {| summarizer := None; tokenizer := None |}.

Definition sentence_end : Re.pattern := [Re.Plus (Re.one_of ".!?")].

Definition tokens_fit (tokens : list nat) (max_length : Z) : bool :=
  (Z.of_nat (length tokens) <=? max_length)%Z.

(** One round of the loop of [chunk_text] over [sentences]; the state is
    [(chunks, current_chunk)]. *)
Definition chunk_step (tk : Tokenizer) (max_length : Z)
    (st : list string * string) (sentence : string)
  : outcome (list string * string) :=
  let '(chunks, current_chunk) := st in
  let test_chunk := current_chunk +:+ sentence +:+ ". " in
  test_tokens <~ encode tk test_chunk ;;
  if tokens_fit test_tokens max_length then
    Return (chunks, test_chunk)
  else if Py.truthy current_chunk then
    Return (chunks ++ [Py.strip current_chunk], sentence +:+ ". ")
  else
    ids <~ encode_truncated tk sentence max_length ;;
    truncated <~ decode tk ids ;;
    Return (chunks ++ [truncated], current_chunk).

Fixpoint chunk_loop (tk : Tokenizer) (max_length : Z)
    (sentences : list string) (st : list string * string)
  : outcome (list string * string) :=
  match sentences with
  | [] => Return st
  | sentence :: rest =>
      st' <~ chunk_step tk max_length st sentence ;;
      chunk_loop tk max_length rest st'
  end.

(** The body of [chunk_text] once the tokenizer is at hand *)
Definition chunk_with (tk : Tokenizer) (text : string) (max_length : Z)
  : outcome (list string) :=
  tokens <~ encode tk text ;;
  if tokens_fit tokens max_length then Return [text]
  else
    let sentences := Re.split sentence_end text in
    st <~ chunk_loop tk max_length sentences ([], EmptyString) ;;
    let '(chunks, current_chunk) := st in
    if Py.truthy current_chunk
    then Return (chunks ++ [Py.strip current_chunk])
    else Return chunks.

(** [re.sub(r'\s+', ' ', text)], [re.sub(r'[^\w\s\.\,\!\?\;]', '', text)],
    [re.sub(r'([a-z])([A-Z])', r'\1. \2', text)], then [strip]. *)
Definition clean_text (text : string) : string :=
  let text := Re.sub [Re.Plus Py.isspace] [Re.RText " "] text in
  let text :=
    Re.sub [Re.Chr (λ c, negb (Py.isword c || Py.isspace c
                               || Py.mem c ".,!?;"))] [] text in
  let text :=
    Re.sub [Re.Cap Py.islower; Re.Cap Py.isupper]
           [Re.RGroup 1; Re.RText ". "; Re.RGroup 2] text in
  Py.strip text.

Definition get_length_params (length_setting : string) : Z * Z :=
  if Py.contains "Short" length_setting then (10, 50)%Z
  else if Py.contains "Medium" length_setting then (50, 150)%Z
  else if Py.contains "Long" length_setting then (100, 300)%Z
  else (50, 150)%Z.

Definition bullet : string := "• ".

Fixpoint bullets_of (sentences : list string) : list string :=
  match sentences with
  | [] => []
  | sentence :: rest =>
      let sentence := Py.strip sentence in
      if Py.truthy sentence && (10 <? String.length sentence)
      then (bullet +:+ sentence) :: bullets_of rest
      else bullets_of rest
  end.

Definition newline : string := String (ascii_of_nat 10) EmptyString.

Definition format_as_bullets (text : string) : string :=
  Py.join newline (bullets_of (Re.split sentence_end text)).

Definition format_as_executive_summary (text : string) : string :=
  "**Executive Summary:**" +:+ newline +:+ newline +:+ text.

Definition key_words : list string :=
  ["important"; "key"; "main"; "primary"; "significant"; "crucial"].

(** [re.sub(f'\\b{word}\\b', f'**{word}**', text, flags=re.IGNORECASE)] *)
Definition emphasize_word (word text : string) : string :=
  Re.sub ([Re.Bnd] ++ Re.lit_ci word ++ [Re.Bnd])
         [Re.RText ("**" +:+ word +:+ "**")] text.

Definition emphasize_key_points (text : string) : string :=
  foldl (λ text word, emphasize_word word text) text key_words.

(** [[Xx]rest \w+] *)
Definition verb_pattern (initials rest : string) : Re.pattern :=
  [Re.Chr (Re.one_of initials)] ++ Re.lit rest ++ [Re.Plus Py.isword].

Definition action_patterns : list Re.pattern :=
  [ verb_pattern "Nn" "eed to ";
    verb_pattern "Ss" "hould ";
    verb_pattern "Ww" "ill ";
    verb_pattern "Mm" "ust ";
    verb_pattern "Pp" "lan to " ].

Definition decision_patterns : list Re.pattern :=
  [ verb_pattern "Dd" "ecided to ";
    verb_pattern "Aa" "greed to ";
    verb_pattern "Cc" "hose to ";
    verb_pattern "Rr" "esolved to " ].

(** the loop [for pattern in patterns: found.extend(re.findall(..))] *)
Definition find_each (patterns : list Re.pattern) (text : string) : list string :=
  foldl (λ found pattern, found ++ Re.findall pattern text) [] patterns.

Definition extract_action_items (text : string) : string :=
  let actions := find_each action_patterns text in
  match actions with
  | [] => text
  | _ => "**Action Items:**" +:+ newline +:+
         Py.join newline (map (λ action, bullet +:+ action) actions)
  end.

Definition extract_decisions (text : string) : string :=
  let decisions := find_each decision_patterns text in
  match decisions with
  | [] => text
  | _ => "**Decisions Made:**" +:+ newline +:+
         Py.join newline (map (λ decision, bullet +:+ decision) decisions)
  end.

Definition apply_style (style summary : string) : string :=
  if String.eqb style "Bullet Points" then format_as_bullets summary
  else if String.eqb style "Executive Summary"
       then format_as_executive_summary summary
  else summary.

Definition apply_focus (focus summary : string) : string :=
  if String.eqb focus "Key Points" then emphasize_key_points summary
  else if String.eqb focus "Action Items" then extract_action_items summary
  else if String.eqb focus "Decisions Made" then extract_decisions summary
  else summary.

(** The [try] block of [post_process_summary]: its outcome, and the value
    of the local [summary] when it ends, which the handler returns. *)
Definition post_process_try (summary : string) (config : gmap string string)
  : outcome string * string :=
  match getitem config "style" with
  | Raise e => (Raise e, summary)
  | Return style =>
      let summary := apply_style style summary in
      match getitem config "focus" with
      | Raise e => (Raise e, summary)
      | Return focus =>
          let summary := apply_focus focus summary in
          (Return summary, summary)
      end
  end.

Definition post_process_summary (summary : string) (config : gmap string string)
  : M Self string :=
  match post_process_try summary config with
  | (Return r, _) => ret r
  | (Raise e, summary) =>
      emit (StWarning ("Error in post-processing: " +:+ str e)) ;;
      ret summary
  end.

Section Methods.

(** What the body of the cached [load_model] comes to in this process:
    the pair it builds, or the exception of [from_pretrained]. *)
Variable pretrained : outcome (Pipeline * Tokenizer).

Definition load_model : M Self (option Pipeline * option Tokenizer) :=
  emit LoadModel ;;
  match pretrained with
  | Return (p, t) => ret (Some p, Some t)
  | Raise e =>
      emit (StError ("Error loading summarization model: " +:+ str e)) ;;
      ret (None, None)
  end.

(** [self.summarizer, self.tokenizer = self.load_model()] *)
Definition reload : M Self () :=
  pt <- load_model ;;
  put {| summarizer := pt.1; tokenizer := pt.2 |}.

Definition chunk_text_try (text : string) (max_length : Z)
  : M Self (list string) :=
  self <- get ;;
  (match tokenizer self with None => reload | Some _ => ret () end) ;;
  self <- get ;;
  match tokenizer self with
  | None =>
      raise (Exn "AttributeError"
                 "'NoneType' object has no attribute 'encode'")
  | Some tk => lift (chunk_with tk text max_length)
  end.

Definition chunk_text (text : string) (max_length : Z)
  : M Self (list string) :=
  try_except (chunk_text_try text max_length)
    (λ e, emit (StWarning ("Error chunking text: " +:+ str e)) ;;
          ret [Py.slice_to 2000 text]).

(** [self.summarizer(chunk, max_length=.., min_length=.., ...)] *)
Definition call_summarizer (chunk : string) (max_length min_length : Z)
  : M Self (list (gmap string string)) :=
  self <- get ;;
  match summarizer self with
  | None => raise (Exn "TypeError" "'NoneType' object is not callable")
  | Some p =>
      emit (ModelCall chunk max_length min_length) ;;
      lift (run p chunk max_length min_length)
  end.

(** The body of [for chunk in chunks] *)
Definition summarize_chunk (min_length max_length : Z)
    (chunk_summaries : list string) (chunk : string)
  : M Self (list string) :=
  try_except
    (summary <- call_summarizer chunk max_length min_length ;;
     match summary with
     | first :: _ =>
         text <- lift (getitem first "summary_text") ;;
         ret (chunk_summaries ++ [text])
     | [] => ret chunk_summaries
     end)
    (λ e, emit (StWarning ("Error summarizing chunk: " +:+ str e)) ;;
          ret chunk_summaries).

Fixpoint summarize_chunks (min_length max_length : Z)
    (chunks : list string) (chunk_summaries : list string)
  : M Self (list string) :=
  match chunks with
  | [] => ret chunk_summaries
  | chunk :: rest =>
      chunk_summaries <-
        summarize_chunk min_length max_length chunk_summaries chunk ;;
      summarize_chunks min_length max_length rest chunk_summaries
  end.

Definition too_short (text : string) : bool :=
  negb (Py.truthy text) || (String.length (Py.strip text) <? 50).

Definition summarize_try (text : string) (config : gmap string string)
  : M Self string :=
  if too_short text then ret "Text too short to summarize effectively."
  else
    self <- get ;;
    (match summarizer self with None => reload | Some _ => ret () end) ;;
    self <- get ;;
    match summarizer self with
    | None => raise (Exn "Exception" "Failed to load summarization model")
    | Some _ =>
        let cleaned_text := clean_text text in
        length_setting <- lift (getitem config "length") ;;
        let '(min_length, max_length) := get_length_params length_setting in
        chunks <- chunk_text cleaned_text 1024 ;;
        chunk_summaries <-
          summarize_chunks min_length max_length chunks [] ;;
        match chunk_summaries with
        | [] => ret "Could not generate summary."
        | _ =>
            let combined_summary := Py.join " " chunk_summaries in
            final_summary <- post_process_summary combined_summary config ;;
            ret final_summary
        end
    end.

Definition summarize (text : string) (config : gmap string string)
  : M Self string :=
  try_except (summarize_try text config)
    (λ e, emit (StError ("Error during summarization: " +:+ str e)) ;;
          ret ("Summarization failed: " +:+ str e)).

End Methods.

End Summarizer.

(** ** [utils/transcription.py] *)

Module Transcriber.
Import Eff.
Local Open Scope py_scope.

(** The whisper model: [model.transcribe(path, language=.., ...)] gives a
    dictionary, of which the code reads the entry ["text"]. *)
Record WhisperModel := {
  recognise : string → option string → outcome (gmap string string)
}.

Record Self := { model : option WhisperModel }.

(** [__init__] drops what [load_model] returns. *)
Definition init : Self := {| model := None |}.

Section Methods.

(** [os.path.exists] *)
Variable path_exists : string → bool.

(** What [whisper.load_model(model_size)] comes to in this process *)
Variable pretrained : outcome WhisperModel.

Definition load_model : M Self (option WhisperModel) :=
  emit LoadModel ;;
  match pretrained with
  | Return m => ret (Some m)
  | Raise e =>
      emit (StError ("Error loading Whisper model: " +:+ str e)) ;;
      ret None
  end.

Definition transcribe_try (audio_file_path : string)
    (language : option string) : M Self string :=
  if negb (path_exists audio_file_path) then
    raise (Exn "FileNotFoundError"
               ("Audio file not found: " +:+ audio_file_path))
  else
    self <- get ;;
    (match model self with
     | None => m <- load_model ;; put {| model := m |}
     | Some _ => ret ()
     end) ;;
    self <- get ;;
    match model self with
    | None => raise (Exn "Exception" "Failed to load Whisper model")
    | Some m =>
        emit (WhisperCall audio_file_path language) ;;
        result <- lift (recognise m audio_file_path language) ;;
        text <- lift (getitem result "text") ;;
        let transcribed_text := Py.strip text in
        if negb (Py.truthy transcribed_text)
        then ret "No speech detected in the audio file."
        else ret transcribed_text
    end.

Definition transcribe (audio_file_path : string)
    (language : option string) : M Self string :=
  try_except (transcribe_try audio_file_path language)
    (λ e, emit (StError ("Error during transcription: " +:+ str e)) ;;
          ret ("Transcription failed: " +:+ str e)).

End Methods.

End Transcriber.

(** ** Models to run the code on

    A byte-level tokenizer with an empty merge table: one token per
    character between the markers [<s>] (0) and [</s>] (2), as the
    tokenizer of BART places them; truncation keeps the markers; decoding
    writes the markers out, as [decode] does without
    [skip_special_tokens]. *)

Module Sample.
Import Eff.

Definition token_of (c : ascii) : nat := 3 + nat_of_ascii c.

Fixpoint tokens_of (s : string) : list nat :=
  match s with
  | EmptyString => []
  | String c s' => token_of c :: tokens_of s'
  end.

Definition text_of (t : nat) : string :=
  match t with
  | 0 => "<s>"
  | 1 => "<pad>"
  | 2 => "</s>"
  | _ => String (ascii_of_nat (t - 3)) EmptyString
  end.

Definition byte_tokenizer : Summarizer.Tokenizer := {|
  Summarizer.encode s := Return (0 :: tokens_of s ++ [2]);
  Summarizer.encode_truncated s n :=
    if (n <? 2)%Z
    then Raise (Exn "ValueError" "max_length leaves no room for the text")
    else Return (0 :: take (Z.to_nat n - 2) (tokens_of s) ++ [2]);
  Summarizer.decode ts := Return (foldr (λ t r, text_of t +:+ r) EmptyString ts)
|}.

(** a pipeline that is down: every call raises *)
Definition failing_pipeline : Summarizer.Pipeline := {|
  Summarizer.run _ _ _ := Raise (Exn "RuntimeError" "CUDA out of memory")
|}.

(** a pipeline that answers with the first 20 characters of its input *)
Definition echo_pipeline : Summarizer.Pipeline := {|
  Summarizer.run text _ _ :=
    Return [ {[ "summary_text" := Py.slice_to 20 text ]} ]
|}.

Definition whisper_says (text : string) : Transcriber.WhisperModel := {|
  Transcriber.recognise _ _ := Return {[ "text" := text; "language" := "en" ]}
|}.

End Sample.

(** ** [app.py]: the settings of the sidebar and the configuration built
    from them *)

Module App.

Inductive Length := Short | Medium | Long.
Inductive Style := Bullet | Paragraph | Executive.
Inductive Focus := General | KeyPoints | ActionItems | Decisions.

(** the options of the three select boxes *)
Definition length_option (l : Length) : string :=
  match l with
  | Short => "Short (1-2 sentences)"
  | Medium => "Medium (3-5 sentences)"
  | Long => "Long (6+ sentences)"
  end.

Definition style_option (s : Style) : string :=
  match s with
  | Bullet => "Bullet Points"
  | Paragraph => "Paragraph"
  | Executive => "Executive Summary"
  end.

Definition focus_option (f : Focus) : string :=
  match f with
  | General => "General"
  | KeyPoints => "Key Points"
  | ActionItems => "Action Items"
  | Decisions => "Decisions Made"
  end.

Record SummaryConfig := {
  length : Length;
  style : Style;
  focus : Focus
}.

(** [summary_config = {'length': .., 'style': .., 'focus': ..}] *)
Definition summary_config (c : SummaryConfig) : gmap string string :=
  {[ "length" := length_option (length c);
     "style" := style_option (style c);
     "focus" := focus_option (focus c) ]}.

(** the order Short < Medium < Long *)
Definition rank (l : Length) : nat :=
  match l with Short => 0 | Medium => 1 | Long => 2 end.

End App.

(** ** More of Python's [str], and [os.path.join] *)

Module PyStr.

(** [s.replace(old, new)] and [s.count(sub)] for a non-empty [old] or
    [sub]: both go through the occurrences found from left to right, none
    overlapping the one before, which is the scan of the literal pattern. *)
Definition replace (old new s : string) : string :=
  Re.sub (Re.lit old) [Re.RText new] s.

Definition count (sub s : string) : nat :=
  length (Re.findall (Re.lit sub) s).

(** [s.lower()] *)
Fixpoint lower (s : string) : string :=
  match s with
  | EmptyString => EmptyString
  | String c s' => String (Py.lower c) (lower s')
  end.

(** [s.endswith(suffix)] *)
Fixpoint endswith (suffix s : string) : bool :=
  String.eqb suffix s ||
  match s with
  | EmptyString => false
  | String _ s' => endswith suffix s'
  end.

End PyStr.

Module OsPath.

(** [os.path.join(a, b)] of [posixpath] *)
Definition join (a b : string) : string :=
  if Py.startswith "/" b then b
  else if negb (Py.truthy a) || PyStr.endswith "/" a then a +:+ b
  else a +:+ "/" +:+ b.

End OsPath.

(** ** [utils/audio_processor.py] *)

Module AudioProcessor.
Import Eff.
Local Open Scope py_scope.

(** What the code asks of pydub, for [Audio] the type of an [AudioSegment]
    and [dB] the type of a level in decibels (a float).  The comparison of a
    level with a constant and the arithmetic on levels stay with the
    library. *)
Record Pydub {Audio dB : Type} := {
  from_wav : string → outcome Audio;
  from_mp3 : string → outcome Audio;
  from_ogg : string → outcome Audio;
  (* AudioSegment.from_file(path, format=..) *)
  from_file : string → option string → outcome Audio;
  (* audio.normalize() *)
  normalize : Audio → outcome Audio;
  (* audio.strip_silence(silence_threshold=..) *)
  strip_silence : Audio → Z → outcome Audio;
  (* audio.dBFS *)
  dBFS : Audio → outcome dB;
  (* level < n *)
  below : dB → Z → bool;
  (* abs(level) - n *)
  headroom : dB → Z → dB;
  (* audio + level *)
  gain : Audio → dB → outcome Audio;
  set_frame_rate : Audio → Z → outcome Audio;
  set_channels : Audio → Z → outcome Audio;
  (* audio.export(path, format=..) *)
  export : Audio → string → string → outcome ()
}.

Arguments Pydub : clear implicits.

Record Self := { temp_dir : string }.

Definition init : Self := {| temp_dir := "temp" |}.

Section Methods.

Context {Audio dB : Type}.
Variable pydub : Pydub Audio dB.


Definition normalize_audio_try (audio : Audio) : outcome Audio :=
  normalized <~ normalize pydub audio ;;
  normalized <~ strip_silence pydub normalized (-50) ;;
  level <~ dBFS pydub normalized ;;
  if below pydub level (-20) then
    level <~ dBFS pydub normalized ;;
    gain pydub normalized (headroom pydub level 20)
  else Return normalized.

Definition normalize_audio (audio : Audio) : M Self Audio :=
  try_except (lift (normalize_audio_try audio))
    (λ e, emit (StWarning ("Warning: Could not normalize audio: " +:+ str e)) ;;
          ret audio).




End Methods.

End AudioProcessor.


(** ** [utils/pdf_generator.py]: the markup of a text *)

Module Pdf.

Definition format_text (text : string) : string :=
  let text := PyStr.replace "**" "</b>" (PyStr.replace "**" "<b>" text) in
  if PyStr.count "</b>" text <? PyStr.count "<b>" text
  then text +:+ "</b>"
  else text.

End Pdf.

(** A pydub to run the code on: an audio is the list of the operations that
    made it, a level is an integer; the library fails where [broken] says
    so. *)

Module SampleAudio.
Import Eff.


End SampleAudio.

(** * Vocabulary of the properties

    Nothing below is code of the program: these are the notions in which
    its properties are stated. *)

Import Eff.

(** the concatenation of a list of texts *)
Fixpoint cat (parts : list string) : string :=
  match parts with
  | [] => EmptyString
  | p :: parts' => p +:+ cat parts'
  end.

(** the text without its white space: two texts are equal modulo white
    space when their squeezed forms are equal *)
Fixpoint squeeze (s : string) : string :=
  match s with
  | EmptyString => EmptyString
  | String c s' => if Py.isspace c then squeeze s' else String c (squeeze s')
  end.

(** the text without the characters of a class *)
Fixpoint without (p : ascii → bool) (s : string) : string :=
  match s with
  | EmptyString => EmptyString
  | String c s' => if p c then without p s' else String c (without p s')
  end.

(** the text without white space and without the terminators [.!?] *)
Definition letters (s : string) : string :=
  without (λ c, Py.isspace c || Re.one_of ".!?" c) s.

(** the first [k] characters of [s] exist and belong to the class *)
Fixpoint heads (p : ascii → bool) (k : nat) (s : string) : bool :=
  match k, s with
  | 0, _ => true
  | S k', String c s' => p c && heads p k' s'
  | S _, EmptyString => false
  end.

(** every character of [s] belongs to the class *)
Fixpoint allb (p : ascii → bool) (s : string) : bool :=
  match s with
  | EmptyString => true
  | String c s' => p c && allb p s'
  end.

(** the character before the rest, once [w] is passed *)
Fixpoint last_of (prev : option ascii) (w : string) : option ascii :=
  match w with
  | EmptyString => prev
  | String c w' => last_of (Some c) w'
  end.

(** the fragments of a scan put back together, matches left out *)
Definition rejoin (ps : list Re.piece) : string :=
  let '(f, r) := Re.fragments ps in f +:+ cat r.

(** ** Words and keywords *)

(** [w] is [kw] up to the case of its letters *)
Fixpoint ci_eq (w kw : string) : bool :=
  match w, kw with
  | EmptyString, EmptyString => true
  | String c w', String k kw' => Re.same_ci k c && ci_eq w' kw'
  | _, _ => false
  end.

(** the head of [s] that is [kw] up to case, and the rest *)
Fixpoint take_ci (kw s : string) : option (string * string) :=
  match kw with
  | EmptyString => Some (EmptyString, s)
  | String k kw' =>
      match s with
      | String c s' =>
          if Re.same_ci k c then
            match take_ci kw' s' with
            | Some (w, rest) => Some (String c w, rest)
            | None => None
            end
          else None
      | EmptyString => None
      end
  end.

(** the pattern of [emphasize_word] *)
Definition word_pattern (kw : string) : Re.pattern :=
  [Re.Bnd] ++ Re.lit_ci kw ++ [Re.Bnd].

(** The text cut into its whole words, which are its maximal runs of word
    characters, and its other characters one by one. *)
Fixpoint runs (s : string) : list string :=
  match s with
  | EmptyString => []
  | String c s' =>
      if Py.isword c && Re.word_of (Re.next s') then
        match runs s' with
        | r :: rs => String c r :: rs
        | [] => [String c EmptyString]
        end
      else String c EmptyString :: runs s'
  end.

Definition is_run (r : string) : bool := Py.truthy r && allb Py.isword r.

Definition is_gap (r : string) : bool :=
  match r with
  | String c EmptyString => negb (Py.isword c)
  | _ => false
  end.

Definition starts_gap (l : list string) : Prop :=
  match l with
  | [] => True
  | r :: _ => is_gap r = true
  end.

(** a list of runs and other characters in which no two runs touch *)
Fixpoint tiled (l : list string) : Prop :=
  match l with
  | [] => True
  | r :: l' =>
      (is_gap r = true ∨ (is_run r = true ∧ starts_gap l')) ∧ tiled l'
  end.

(** a keyword: lower-case letters, at least one *)
Definition is_keyword (kw : string) : bool :=
  Py.truthy kw && allb Py.islower kw.

Definition stars (kw : string) : string := "**" +:+ kw +:+ "**".

Definition mark1 (kw r : string) : string :=
  if ci_eq r kw then stars kw else r.

Definition split1 (kw r : string) : list string :=
  if ci_eq r kw then ["*"; "*"; kw; "*"; "*"] else [r].

(** What the code makes of one whole word or other character: a word that
    is a keyword up to case becomes the keyword, as the list spells it,
    between the markers. *)
Fixpoint mark (kws : list string) (r : string) : string :=
  match kws with
  | [] => r
  | kw :: kws' => if ci_eq r kw then stars kw else mark kws' r
  end.

(** What the specification asks for: the occurrence itself between the
    markers, in the case it was written in. *)
Definition mark_kept (kws : list string) (r : string) : string :=
  if existsb (ci_eq r) kws then stars r else r.

(** the substitution of [emphasize_word], started in the middle of a text *)
Definition rewrite_from (kw : string) (prev : option ascii) (s : string)
  : string :=
  Re.replace [Re.RText (stars kw)] (Re.scan (word_pattern kw) prev s 0).

(** ** Running the methods *)

Definition length_bounds (l : App.Length) : Z * Z :=
  Summarizer.get_length_params (App.length_option l).

Definition decision_text : string :=
  "This is a very important decision. We need to finalize it by Friday.".

Definition action_config : gmap string string :=
  App.summary_config
    {| App.length := App.Medium; App.style := App.Paragraph;
       App.focus := App.ActionItems |}.

(** [self] after [self.summarizer, self.tokenizer = self.load_model()] *)
Definition loaded (pretrained : outcome (Summarizer.Pipeline * Summarizer.Tokenizer))
  : Summarizer.Self :=
  match pretrained with
  | Return (p, t) =>
      {| Summarizer.summarizer := Some p; Summarizer.tokenizer := Some t |}
  | Raise _ =>
      {| Summarizer.summarizer := None; Summarizer.tokenizer := None |}
  end.

(** [self] after the lazy load at the head of [summarize] *)
Definition ready (pretrained : outcome (Summarizer.Pipeline * Summarizer.Tokenizer))
    (self : Summarizer.Self) : Summarizer.Self :=
  match Summarizer.summarizer self with
  | Some _ => self
  | None => loaded pretrained
  end.

(** the tokenizer that [chunk_text] works with: the one of [self], or the
    one that the lazy load brings *)
Definition tokenizer_in_use
    (pretrained : outcome (Summarizer.Pipeline * Summarizer.Tokenizer))
    (self : Summarizer.Self) : option Summarizer.Tokenizer :=
  match Summarizer.tokenizer self, pretrained with
  | Some tk, _ => Some tk
  | None, Return (_, tk) => Some tk
  | None, Raise _ => None
  end.

(** the state that a run leaves, and what it logs *)
Definition state_after {S A} (r : outcome A * S * list event) : S := r.1.2.
Definition logged {S A} (r : outcome A * S * list event) : list event := r.2.

(** the chunks that a run of [chunk_text] returns *)
Definition chunks_of {S} (r : outcome (list string) * S * list event)
  : list string :=
  match result r with
  | Return chunks => chunks
  | Raise _ => []
  end.

(** the call of [chunk_text] in a run of [summarize] *)
Definition chunking
    (pretrained : outcome (Summarizer.Pipeline * Summarizer.Tokenizer))
    (self : Summarizer.Self) (text : string) :=
  Summarizer.chunk_text pretrained (Summarizer.clean_text text) 1024
    (ready pretrained self).

(** what the lazy load at the head of [summarize] logs *)
Definition lazy_load
    (pretrained : outcome (Summarizer.Pipeline * Summarizer.Tokenizer))
    (self : Summarizer.Self) : list event :=
  match Summarizer.summarizer self with
  | Some _ => []
  | None => logged (Summarizer.reload pretrained self)
  end.

(** the summary that the pipeline gives for a chunk, if the call gives one *)
Definition chunk_summary (p : Summarizer.Pipeline) (max_length min_length : Z)
    (chunk : string) : option string :=
  match Summarizer.run p chunk max_length min_length with
  | Return (first :: _) => first !! "summary_text"
  | _ => None
  end.

(** the summaries that the loop over the chunks keeps, run from [self] *)
Definition kept (self : Summarizer.Self) (max_length min_length : Z)
    (chunks : list string) : list string :=
  match Summarizer.summarizer self with
  | Some p => omap (chunk_summary p max_length min_length) chunks
  | None => []
  end.

(** [str(e)] for the exception that the call on a chunk raises *)
Definition failure (p : Summarizer.Pipeline) (max_length min_length : Z)
    (chunk : string) : string :=
  match Summarizer.run p chunk max_length min_length with
  | Raise e => str e
  | Return _ => EmptyString
  end.

(** what the loop logs for a chunk whose call raises: the call, and the
    warning of the handler *)
Definition failed_attempt (p : Summarizer.Pipeline)
    (max_length min_length : Z) (chunk : string) : list event :=
  [ModelCall chunk max_length min_length;
   StWarning ("Error summarizing chunk: "
              +:+ failure p max_length min_length chunk)].

(** the summary after post-processing: styled and then focused, as far as
    the configuration has the keys; without ['style'] the summary as it
    is, without ['focus'] the styled summary *)
Definition post_processed (summary : string) (config : gmap string string)
  : string :=
  match config !! "style" with
  | None => summary
  | Some style =>
      match config !! "focus" with
      | None => Summarizer.apply_style style summary
      | Some focus =>
          Summarizer.apply_focus focus (Summarizer.apply_style style summary)
      end
  end.

(** the configuration of the example without its ['style'] and ['focus'] *)
Definition bare_config : gmap string string :=
  {[ "length" := App.length_option App.Medium ]}.

(** a sentence as the loop of [chunk_text] puts it into a chunk *)
Definition closed (sentence : string) : string := sentence +:+ ". ".

(** a tokenizer whose [encode] never raises *)
Definition total (tk : Summarizer.Tokenizer) : Prop :=
  ∀ s, ∃ tokens, Summarizer.encode tk s = Return tokens.

Definition fits (tk : Summarizer.Tokenizer) (max_length : Z) (s : string)
  : Prop :=
  ∀ tokens, Summarizer.encode tk s = Return tokens →
            Summarizer.tokens_fit tokens max_length = true.

(** a chunk with more tokens than the budget *)
Definition over_budget (tk : Summarizer.Tokenizer) (max_length : Z)
    (chunk : string) : Prop :=
  ∃ tokens, Summarizer.encode tk chunk = Return tokens ∧
            (max_length < Z.of_nat (length tokens))%Z.

(** unfold the monad and reduce the administrative redexes *)
Ltac mrun :=
  unfold bind, try_except, get, put, emit, ret, raise, lift;
  cbv beta iota zeta.

(** ** Vocabulary for the rest of the code *)

(** the text that a scan went through, matches included *)
Fixpoint spell (ps : list Re.piece) : string :=
  match ps with
  | [] => EmptyString
  | Re.Lit c :: ps' => String c (spell ps')
  | Re.Hit w _ :: ps' => w +:+ spell ps'
  end.

(** the calls of the summarisation pipeline in a trace *)
Definition model_calls (ev : list event) : list event :=
  List.filter (λ e, match e with ModelCall _ _ _ => true | _ => false end) ev.

(** the loads of a model in a trace *)
Definition loads (ev : list event) : list event :=
  List.filter (λ e, match e with LoadModel => true | _ => false end) ev.


(** post-processing as the settings of the sidebar select it *)
Definition style_of (s : App.Style) (summary : string) : string :=
  match s with
  | App.Bullet => Summarizer.format_as_bullets summary
  | App.Paragraph => summary
  | App.Executive => Summarizer.format_as_executive_summary summary
  end.

Definition focus_of (f : App.Focus) (summary : string) : string :=
  match f with
  | App.General => summary
  | App.KeyPoints => Summarizer.emphasize_key_points summary
  | App.ActionItems => Summarizer.extract_action_items summary
  | App.Decisions => Summarizer.extract_decisions summary
  end.

(** the whisper model that [transcribe] works with: the one of [self], or
    the one that the lazy load brings *)
Definition model_in_use (pretrained : outcome Transcriber.WhisperModel)
    (self : Transcriber.Self) : option Transcriber.WhisperModel :=
  match Transcriber.model self, pretrained with
  | Some m, _ => Some m
  | None, Return m => Some m
  | None, Raise _ => None
  end.

(** the text that [transcribe] makes of what the model returns *)
Definition transcript_of (recognised : outcome (gmap string string)) : string :=
  match recognised with
  | Raise e => "Transcription failed: " +:+ str e
  | Return result =>
      match result !! "text" with
      | None => "Transcription failed: 'text'"
      | Some text =>
          if Py.truthy (Py.strip text) then Py.strip text
          else "No speech detected in the audio file."
      end
  end.

(** the audio that goes on after [normalize_audio]: the normalized one, or
    the one that came in *)
Definition normalized_or_same {Audio dB} (pydub : AudioProcessor.Pydub Audio dB)
    (audio : Audio) : Audio :=
  match AudioProcessor.normalize_audio_try pydub audio with
  | Return normalized => normalized
  | Raise _ => audio
  end.


(** the marker of bold text, [**], read from left to right and replaced *)
Definition star (c : ascii) : bool := Ascii.eqb c "*".

Fixpoint unstar (new s : string) : string :=
  match s with
  | EmptyString => EmptyString
  | String c s' =>
      match s' with
      | String d rest =>
          if star c && star d then new +:+ unstar new rest
          else String c (unstar new s')
      | EmptyString => String c EmptyString
      end
  end.


(** * Properties *)

(** ** Strings *)

Section StringFacts.

Lemma app_cons c (s t : string) : String c s +:+ t = String c (s +:+ t).
Proof. reflexivity. Qed.

Lemma app_empty_l (s : string) : "" +:+ s = s.
Proof. reflexivity. Qed.

Lemma app_empty_r (s : string) : s +:+ "" = s.
Proof. induction s as [|c s IH]; [done|]. by rewrite app_cons, IH. Qed.

Lemma app_assoc (s t u : string) : (s +:+ t) +:+ u = s +:+ t +:+ u.
Proof. induction s as [|c s IH]; [done|]. by rewrite !app_cons, IH. Qed.

Lemma cat_app (l1 l2 : list string) : cat (l1 ++ l2) = cat l1 +:+ cat l2.
Proof.
  induction l1 as [|p l1 IH]; [done|]. cbn. by rewrite IH, app_assoc.
Qed.

Lemma squeeze_app (s t : string) :
  squeeze (s +:+ t) = squeeze s +:+ squeeze t.
Proof.
  induction s as [|c s IH]; [done|]. rewrite app_cons. cbn.
  destruct (Py.isspace c); by rewrite IH.
Qed.

Lemma squeeze_lstrip (s : string) : squeeze (Py.lstrip s) = squeeze s.
Proof.
  induction s as [|c s IH]; [done|]. cbn.
  destruct (Py.isspace c) eqn:Hc; [done|]. cbn. by rewrite Hc.
Qed.

Lemma squeeze_rstrip (s : string) : squeeze (Py.rstrip s) = squeeze s.
Proof.
  induction s as [|c s IH]; [done|]. cbn. rewrite <- IH.
  destruct (Py.rstrip s) as [|d r]; destruct (Py.isspace c) eqn:Hc; cbn;
    by rewrite ?Hc.
Qed.

Lemma squeeze_strip (s : string) : squeeze (Py.strip s) = squeeze s.
Proof. unfold Py.strip. by rewrite squeeze_rstrip, squeeze_lstrip. Qed.

Lemma without_app p (s t : string) :
  without p (s +:+ t) = without p s +:+ without p t.
Proof.
  induction s as [|c s IH]; [done|]. rewrite app_cons. cbn.
  destruct (p c); by rewrite IH.
Qed.

Lemma letters_squeeze (s : string) : letters (squeeze s) = letters s.
Proof.
  unfold letters. induction s as [|c s IH]; [done|]. cbn -[Re.one_of].
  destruct (Py.isspace c) eqn:Hc; cbn -[Re.one_of]; by rewrite ?Hc, IH.
Qed.

Lemma letters_without_terminators (s : string) :
  letters (without (Re.one_of ".!?") s) = letters s.
Proof.
  unfold letters. induction s as [|c s IH]; [done|]. cbn -[Re.one_of].
  destruct (Re.one_of ".!?" c) eqn:Hc; cbn -[Re.one_of];
    by rewrite ?Hc, ?orb_true_r, ?IH.
Qed.

Lemma letters_closed (sentences : list string) :
  letters (cat (map closed sentences)) = letters (cat sentences).
Proof.
  unfold letters. induction sentences as [|s rest IH]; [done|].
  cbn [map cat]. unfold closed at 1.
  rewrite !without_app, IH. by rewrite app_assoc.
Qed.

Lemma closed_truthy (s : string) : Py.truthy (closed s) = true.
Proof. by destruct s. Qed.

End StringFacts.

(** ** The matcher on the patterns of the program *)

Section Engine.

Lemma scan_skip pat w : ∀ prev rest,
  Re.scan pat prev (w +:+ rest) (String.length w)
  = Re.scan pat (last_of prev w) rest 0.
Proof.
  induction w as [|c w IH]; intros prev rest; [done|].
  rewrite app_cons. cbn [String.length Re.scan last_of]. apply IH.
Qed.

Lemma scan_hit pat prev c w rest g :
  Re.match_at pat prev (String c (w +:+ rest)) = Some (String c w, g) →
  Re.scan pat prev (String c (w +:+ rest)) 0
  = Re.Hit (String c w) g :: Re.scan pat (last_of (Some c) w) rest 0.
Proof. intros H. cbn [Re.scan]. rewrite H. cbn [String.length]. by rewrite scan_skip. Qed.

Lemma scan_miss pat prev c s :
  Re.match_at pat prev (String c s) = None →
  Re.scan pat prev (String c s) 0 = Re.Lit c :: Re.scan pat (Some c) s 0.
Proof. intros H. cbn [Re.scan]. by rewrite H. Qed.

Lemma match_lit_ci kw : ∀ pat prev s,
  Re.match_at (Re.lit_ci kw ++ pat) prev s
  = match take_ci kw s with
    | Some (w, rest) =>
        match Re.match_at pat (last_of prev w) rest with
        | Some (w2, g) => Some (w +:+ w2, g)
        | None => None
        end
    | None => None
    end.
Proof.
  induction kw as [|k kw IH]; intros pat prev s.
  - cbn. by destruct (Re.match_at pat prev s) as [[??]|].
  - cbn [Re.lit_ci app take_ci Re.match_at]. destruct s as [|c s]; [done|].
    destruct (Re.same_ci k c); [|done]. rewrite IH.
    destruct (take_ci kw s) as [[w rest]|]; [|done]. cbn [last_of].
    by destruct (Re.match_at pat (last_of (Some c) w) rest) as [[??]|].
Qed.

Lemma match_word kw prev s :
  Re.match_at (word_pattern kw) prev s
  = if Re.boundary prev s then
      match take_ci kw s with
      | Some (w, rest) =>
          if Re.boundary (last_of prev w) rest then Some (w, []) else None
      | None => None
      end
    else None.
Proof.
  unfold word_pattern. cbn [app Re.match_at].
  destruct (Re.boundary prev s); [|done]. rewrite match_lit_ci.
  destruct (take_ci kw s) as [[w rest]|]; [|done]. cbn [Re.match_at].
  destruct (Re.boundary _ rest); [|done]. by rewrite app_empty_r.
Qed.

Lemma take_ci_spec kw : ∀ s w rest,
  take_ci kw s = Some (w, rest) → s = w +:+ rest ∧ ci_eq w kw = true.
Proof.
  induction kw as [|k kw IH]; intros s w rest; cbn.
  - by intros [= <- <-].
  - destruct s as [|c s]; [done|]. destruct (Re.same_ci k c) eqn:Hk; [|done].
    destruct (take_ci kw s) as [[w' rest']|] eqn:Ht; [|done].
    intros [= <- <-]. destruct (IH _ _ _ Ht) as [-> Hci].
    cbn. by rewrite Hk, Hci.
Qed.

Lemma take_ci_of_eq kw : ∀ w rest,
  ci_eq w kw = true → take_ci kw (w +:+ rest) = Some (w, rest).
Proof.
  induction kw as [|k kw IH]; intros [|c w] rest; cbn; try done.
  intros [Hk Hci]%andb_true_iff. rewrite app_cons, Hk, IH; done.
Qed.

End Engine.

(** ** Splitting at the runs of a class *)

Section Split.
Variable p : ascii → bool.

Lemma plus_hit s : ∀ prev w g,
  Re.match_at [Re.Plus p] prev s = Some (w, g) →
  ∃ k, String.length w = S k ∧ heads p (S k) s = true.
Proof.
  induction s as [|c s IH]; intros prev w g; [discriminate|].
  cbn in *. destruct (p c) eqn:Hc; [|discriminate].
  destruct ((fix more (s0 : string) : option Re.found := _) s)
    as [[w' g']|] eqn:Hmore.
  - intros [= <- <-]. destruct (IH prev w' g' eq_refl) as (k & Hk & Hh).
    exists (S k). cbn. rewrite Hk. split; [done|].
    destruct s; [discriminate|]. by cbn in *.
  - intros [= <- <-]. by exists 0.
Qed.

Lemma plus_miss c s prev :
  Re.match_at [Re.Plus p] prev (String c s) = None → p c = false.
Proof.
  cbn. destruct (p c); [|done].
  by destruct ((fix more (s0 : string) : option Re.found := _) s) as [[??]|].
Qed.

Lemma rejoin_lit c ps : rejoin (Re.Lit c :: ps) = String c (rejoin ps).
Proof. unfold rejoin. cbn. by destruct (Re.fragments ps). Qed.

Lemma rejoin_hit w g ps : rejoin (Re.Hit w g :: ps) = rejoin ps.
Proof. unfold rejoin. cbn. by destruct (Re.fragments ps). Qed.

Lemma scan_plus_rejoin s : ∀ prev skip,
  heads p skip s = true →
  rejoin (Re.scan [Re.Plus p] prev s skip) = without p s.
Proof.
  induction s as [|c s IH]; intros prev skip Hskip.
  - destruct skip; [done|discriminate].
  - destruct skip as [|k].
    + cbn [Re.scan].
      destruct (Re.match_at [Re.Plus p] prev (String c s)) as [[w g]|] eqn:Hm.
      * apply plus_hit in Hm as (k & -> & [Hc Hk]%andb_true_iff).
        rewrite rejoin_hit, IH by done. cbn. by rewrite Hc.
      * apply plus_miss in Hm. rewrite rejoin_lit, IH by done.
        cbn. by rewrite Hm.
    + cbn in Hskip. apply andb_true_iff in Hskip as [Hc Hk].
      cbn. rewrite Hc. by apply IH.
Qed.

Lemma split_plus_cat s : cat (Re.split [Re.Plus p] s) = without p s.
Proof.
  rewrite <- (scan_plus_rejoin s None 0 eq_refl).
  unfold Re.split, rejoin, Re.pieces. by destruct (Re.fragments _).
Qed.
End Split.


(** ** Characters and keywords *)

Section Chars.

Lemma lower_of_lower k : Py.islower k = true → Py.lower k = k.
Proof. destruct k as [[] [] [] [] [] [] [] []]; vm_compute; done. Qed.

Lemma lower_is_lower_word c :
  Py.islower (Py.lower c) = true → Py.isword c = true.
Proof. destruct c as [[] [] [] [] [] [] [] []]; vm_compute; done. Qed.

Lemma islower_isword c : Py.islower c = true → Py.isword c = true.
Proof. destruct c as [[] [] [] [] [] [] [] []]; vm_compute; done. Qed.

Lemma same_ci_word k c :
  Py.islower k = true → Re.same_ci k c = true → Py.isword c = true.
Proof.
  intros Hk Hc. unfold Re.same_ci in Hc.
  apply Ascii.eqb_eq in Hc. apply lower_is_lower_word.
  by rewrite Hc, lower_of_lower.
Qed.

Lemma same_ci_lower k c :
  Py.islower k = true → Py.islower c = true → Re.same_ci k c = true → c = k.
Proof.
  intros Hk Hc H. unfold Re.same_ci in H. apply Ascii.eqb_eq in H.
  by rewrite !lower_of_lower in H.
Qed.

Lemma ci_eq_word kw : ∀ w,
  allb Py.islower kw = true → ci_eq w kw = true → allb Py.isword w = true.
Proof.
  induction kw as [|k kw IH]; intros [|c w]; cbn; try done.
  intros [Hk Hkw]%andb_true_iff [Hc Hw]%andb_true_iff.
  rewrite (same_ci_word k c), IH; done.
Qed.

Lemma ci_eq_lower kw : ∀ w,
  allb Py.islower kw = true → allb Py.islower w = true →
  ci_eq w kw = true → w = kw.
Proof.
  induction kw as [|k kw IH]; intros [|c w]; cbn; try done.
  intros [Hk Hkw]%andb_true_iff [Hc Hw]%andb_true_iff
         [Hkc Hci]%andb_true_iff.
  f_equal; [by apply same_ci_lower | by apply IH].
Qed.

Lemma ci_eq_truthy kw w :
  Py.truthy kw = true → ci_eq w kw = true → Py.truthy w = true.
Proof. by destruct kw, w. Qed.

End Chars.

(** ** Whole words *)

Section Runs.

Lemma gap_inv r :
  is_gap r = true → ∃ c, r = String c EmptyString ∧ Py.isword c = false.
Proof.
  destruct r as [|c [|d r]]; try done. cbn. intros H%negb_true_iff. eauto.
Qed.

Lemma run_inv r :
  is_run r = true →
  ∃ c w, r = String c w ∧ Py.isword c = true ∧ allb Py.isword w = true.
Proof.
  destruct r as [|c w]; [done|]. cbn. intros [??]%andb_true_iff. eauto.
Qed.

Lemma next_cat_gap l : starts_gap l → Re.word_of (Re.next (cat l)) = false.
Proof.
  destruct l as [|r l]; [done|]. cbn.
  intros (c & -> & Hc)%gap_inv. done.
Qed.

Lemma last_of_word w : ∀ prev,
  allb Py.isword w = true → Re.word_of prev = true →
  Re.word_of (last_of prev w) = true.
Proof.
  induction w as [|c w IH]; intros prev; cbn; [done|].
  intros [Hc Hw]%andb_true_iff _. by apply IH.
Qed.

Lemma run_unique w : ∀ w0 r r0,
  w +:+ r = w0 +:+ r0 →
  allb Py.isword w = true → allb Py.isword w0 = true →
  Re.word_of (Re.next r) = false → Re.word_of (Re.next r0) = false →
  w = w0.
Proof.
  induction w as [|c w IH]; intros [|c0 w0] r r0;
    rewrite ?app_cons, ?app_empty_l; cbn [allb]; try done.
  - intros -> _ [Hc _]%andb_true_iff. cbn. congruence.
  - intros <- [Hc _]%andb_true_iff _ _. cbn. congruence.
  - intros [= <- Heq] [_ Hw]%andb_true_iff [_ Hw0]%andb_true_iff Hr Hr0.
    f_equal. by eapply IH.
Qed.

End Runs.

(** ** The substitution of one keyword *)

Section OneWord.
Variable kw : string.
Hypothesis Hkw : is_keyword kw = true.

Lemma emphasize_word_from text :
  Summarizer.emphasize_word kw text = rewrite_from kw None text.
Proof. reflexivity. Qed.

Lemma kw_inv :
  ∃ k kw', kw = String k kw' ∧ Py.islower k = true ∧
           allb Py.islower kw = true.
Proof.
  unfold is_keyword in Hkw. destruct kw as [|k kw']; [done|].
  apply andb_true_iff in Hkw as [_ H]. exists k, kw'. split; [done|].
  split; [|done]. cbn in H. by apply andb_true_iff in H as [? _].
Qed.

Lemma rewrite_nil prev : rewrite_from kw prev "" = "".
Proof.
  unfold rewrite_from. cbn [Re.scan]. rewrite match_word.
  destruct kw_inv as (k & kw' & -> & _). cbn.
  by destruct (Re.boundary prev "").
Qed.

Lemma rewrite_miss prev c s :
  Re.match_at (word_pattern kw) prev (String c s) = None →
  rewrite_from kw prev (String c s) = String c (rewrite_from kw (Some c) s).
Proof. intros H. unfold rewrite_from. by rewrite scan_miss. Qed.

Lemma rewrite_hit prev c w rest :
  Re.match_at (word_pattern kw) prev (String c (w +:+ rest))
    = Some (String c w, []) →
  rewrite_from kw prev (String c (w +:+ rest))
  = stars kw +:+ rewrite_from kw (last_of (Some c) w) rest.
Proof.
  intros H. unfold rewrite_from. rewrite (scan_hit _ _ _ _ _ _ H).
  cbn [Re.replace Re.expand]. by rewrite app_empty_r.
Qed.

Lemma miss_at_gap prev c s :
  Py.isword c = false →
  Re.match_at (word_pattern kw) prev (String c s) = None.
Proof.
  intros Hc. rewrite match_word. destruct (Re.boundary _ _); [|done].
  destruct kw_inv as (k & kw' & -> & Hk & _). cbn.
  destruct (Re.same_ci k c) eqn:Hkc; [|done].
  apply same_ci_word in Hkc; congruence.
Qed.

Lemma miss_inside prev c s :
  Re.word_of prev = true → Py.isword c = true →
  Re.match_at (word_pattern kw) prev (String c s) = None.
Proof.
  intros Hp Hc. rewrite match_word. unfold Re.boundary. cbn.
  by rewrite Hp, Hc.
Qed.

Lemma rewrite_inside w : ∀ prev rest,
  allb Py.isword w = true → Re.word_of prev = true →
  rewrite_from kw prev (w +:+ rest) = w +:+ rewrite_from kw (last_of prev w) rest.
Proof.
  induction w as [|c w IH]; intros prev rest; [done|].
  cbn [allb]. intros [Hc Hw]%andb_true_iff Hp.
  rewrite !app_cons, rewrite_miss by by apply miss_inside.
  f_equal. by apply IH.
Qed.

Lemma ci_eq_run w : ci_eq w kw = true → is_run w = true.
Proof.
  intros H. unfold is_keyword in Hkw.
  apply andb_true_iff in Hkw as [Ht Hl]. unfold is_run.
  by rewrite (ci_eq_truthy kw w), (ci_eq_word kw w).
Qed.

Lemma rewrite_tiled l : ∀ prev,
  tiled l → Re.word_of prev = false ∨ starts_gap l →
  rewrite_from kw prev (cat l) = cat (map (mark1 kw) l).
Proof.
  induction l as [|r l IH]; intros prev Ht Hprev.
  - apply rewrite_nil.
  - destruct Ht as [Hr Hl]. cbn [cat map].
    destruct Hr as [Hgap | [Hrun Hnext]].
    + pose proof Hgap as (c & -> & Hc)%gap_inv.
      rewrite app_cons, app_empty_l, rewrite_miss by by apply miss_at_gap.
      unfold mark1. destruct (ci_eq (String c "") kw) eqn:Hci.
      { apply ci_eq_run in Hci. cbn in Hci. by rewrite Hc in Hci. }
      rewrite app_cons, app_empty_l. f_equal. apply IH; [done|]. by left.
    + assert (Re.word_of prev = false) as Hp.
      { destruct Hprev as [?|Hg]; [done|]. cbn in Hg.
        apply gap_inv in Hg as (c & -> & Hc). cbn in Hrun.
        by rewrite Hc in Hrun. }
      pose proof Hrun as (c & w & -> & Hc & Hw)%run_inv.
      pose proof (next_cat_gap l Hnext) as Hn.
      assert (Re.word_of (last_of prev (String c w)) = true) as Hlast.
      { cbn. by apply last_of_word. }
      unfold mark1. destruct (ci_eq (String c w) kw) eqn:Hci.
      * rewrite app_cons, rewrite_hit.
        { f_equal. apply IH; [done|]. by right. }
        rewrite <- app_cons, match_word, take_ci_of_eq by done.
        unfold Re.boundary at 1. cbn [Re.next app_cons]. rewrite app_cons.
        cbn [Re.next Re.word_of]. rewrite Hp, Hc. cbn [xorb].
        unfold Re.boundary. by rewrite Hlast, Hn.
      * rewrite app_cons, rewrite_miss.
        { rewrite rewrite_inside by done. rewrite app_cons. do 2 f_equal.
          apply IH; [done|]. by right. }
        rewrite <- app_cons, match_word.
        destruct (Re.boundary prev _); [|done].
        destruct (take_ci kw _) as [[w0 rest0]|] eqn:Ht; [|done].
        apply take_ci_spec in Ht as [Heq Hci0].
        destruct (Re.boundary (last_of prev w0) rest0) eqn:Hb; [|done].
        pose proof (ci_eq_run _ Hci0) as (c0 & w0' & -> & Hc0 & Hw0)%run_inv.
        assert (Re.word_of (Re.next rest0) = false) as Hn0.
        { unfold Re.boundary in Hb. cbn [last_of] in Hb.
          rewrite last_of_word in Hb by done.
          by destruct (Re.word_of (Re.next rest0)). }
        apply run_unique in Heq; cbn [allb]; rewrite ?Hc, ?Hc0; try done.
        congruence.
Qed.

End OneWord.

Section Tiling.

Lemma cat_runs s : cat (runs s) = s.
Proof.
  induction s as [|c s IH]; [done|]. cbn [runs].
  destruct (Py.isword c && Re.word_of (Re.next s)) eqn:H.
  - destruct (runs s) as [|r rs]; cbn in *.
    + subst s. by rewrite andb_false_r in H.
    + rewrite app_cons. by f_equal.
  - cbn. by rewrite app_cons, app_empty_l, IH.
Qed.

Lemma runs_head s :
  match runs s with
  | [] => s = ""
  | r :: _ =>
      if Re.word_of (Re.next s) then is_run r = true else is_gap r = true
  end.
Proof.
  induction s as [|c s IH]; [done|]. cbn [runs Re.next Re.word_of].
  destruct (Py.isword c) eqn:Hc; cbn [andb is_gap]; [|by rewrite Hc].
  destruct (Re.word_of (Re.next s)) eqn:Hn.
  - destruct (runs s) as [|r rs]; [by subst|].
    unfold is_run in *. cbn. rewrite Hc. by apply andb_true_iff in IH as [_ ->].
  - unfold is_run. cbn. by rewrite Hc.
Qed.

Lemma gap_not_run r : is_gap r = true → is_run r = true → False.
Proof.
  intros (c & -> & Hc)%gap_inv. unfold is_run. cbn. by rewrite Hc.
Qed.

Lemma tiled_runs s : tiled (runs s).
Proof.
  induction s as [|c s IH]; [done|]. cbn [runs].
  pose proof (runs_head s) as Hh.
  destruct (Py.isword c) eqn:Hc; cbn [andb].
  - destruct (Re.word_of (Re.next s)) eqn:Hn.
    + destruct (runs s) as [|r rs]; [by subst|].
      destruct IH as [[Hg|[_ Hs]] Hrs]; [by destruct (gap_not_run r)|].
      split; [|done]. right. split; [|done].
      unfold is_run in *. cbn. rewrite Hc.
      by apply andb_true_iff in Hh as [_ ->].
    + split; [|done]. right. split; [unfold is_run; cbn; by rewrite Hc|].
      by destruct (runs s).
  - split; [|done]. left. cbn. by rewrite Hc.
Qed.

Lemma cat_split1 kw l :
  cat (flat_map (split1 kw) l) = cat (map (mark1 kw) l).
Proof.
  induction l as [|r l IH]; [done|]. cbn [flat_map map cat].
  rewrite cat_app, IH. f_equal. unfold split1, mark1.
  destruct (ci_eq r kw); cbn; by rewrite ?app_empty_r.
Qed.

Lemma tiled_split1 kw l :
  is_keyword kw = true → tiled l →
  tiled (flat_map (split1 kw) l) ∧
  (starts_gap l → starts_gap (flat_map (split1 kw) l)).
Proof.
  intros Hkw. induction l as [|r l IH]; [done|].
  intros [Hr Hl]. destruct (IH Hl) as [IH1 IH2].
  cbn [flat_map]. unfold split1 at 1 3.
  destruct (ci_eq r kw) eqn:Hci.
  - split; [|done]. cbn. repeat split; auto.
    right. split; [|done]. unfold is_keyword in Hkw. unfold is_run.
    apply andb_true_iff in Hkw as [-> Hlow]. cbn.
    clear -Hlow. induction kw as [|k kw IH]; [done|]. cbn in *.
    apply andb_true_iff in Hlow as [Hk Hkw].
    by rewrite (islower_isword k), IH.
  - cbn [app]. split; [|done]. split; [|done].
    destruct Hr as [Hg|[Hrun Hs]]; [by left|]. right. auto.
Qed.

Lemma mark_other kws r :
  (∀ kw, kw ∈ kws → ci_eq r kw = false) → mark kws r = r.
Proof.
  induction kws as [|kw kws IH]; [done|]. intros H. cbn.
  rewrite (H kw) by by left. apply IH. intros kw' Hin. apply H. by right.
Qed.

End Tiling.

(** ** Key points *)

Section KeyPoints.
Import Summarizer.

Lemma emphasize_fold kws :
  Forall (λ kw, is_keyword kw = true) kws → NoDup kws →
  ∀ l, tiled l →
    foldl (λ text word, emphasize_word word text) (cat l) kws
    = cat (map (mark kws) l).
Proof.
  induction kws as [|kw kws IH]; intros Hkws Hnd l Hl.
  - cbn. by rewrite map_id.
  - apply Forall_cons in Hkws as [Hkw Hkws].
    apply NoDup_cons in Hnd as [Hnot Hnd].
    cbn [foldl]. rewrite emphasize_word_from.
    rewrite (rewrite_tiled kw Hkw l None Hl) by by left.
    rewrite <- cat_split1.
    rewrite IH by (try done; by apply tiled_split1).
    assert (∀ r, is_run r = false → mark kws r = r) as Hgap.
    { intros r Hr. apply mark_other. intros kw' Hin.
      destruct (ci_eq r kw') eqn:Hci; [|done].
      rewrite (ci_eq_run kw') in Hr; [done| |done].
      by eapply Forall_forall in Hkws. }
    assert (mark kws kw = kw) as Hself.
    { apply mark_other. intros kw' Hin.
      destruct (ci_eq kw kw') eqn:Hci; [|done].
      eapply Forall_forall in Hkws; [|done].
      unfold is_keyword in Hkw, Hkws.
      apply andb_true_iff in Hkw as [_ Hkw].
      apply andb_true_iff in Hkws as [_ Hkws].
      apply ci_eq_lower in Hci; [|done..]. by subst. }
    clear -Hgap Hself. induction l as [|r l IHl]; [done|].
    cbn [flat_map map cat]. rewrite map_app, cat_app, IHl. f_equal.
    unfold split1. cbn [mark]. destruct (ci_eq r kw); cbn [map cat].
    + by rewrite Hself, (Hgap "*") by done.
    + by rewrite app_empty_r.
Qed.

Lemma key_words_ok : Forall (λ kw, is_keyword kw = true) key_words.
Proof. repeat constructor. Qed.

Lemma key_words_distinct : NoDup key_words.
Proof. apply (bool_decide_unpack _). by vm_compute. Qed.

(** What [emphasize_key_points] does to every text: cut the text into its
    whole words and its other characters; a word that is a keyword up to
    case becomes the keyword in lower case between the markers, whatever
    its own case was; everything else stays. *)
Lemma emphasize_key_points_by_runs (text : string) :
  emphasize_key_points text = cat (map (mark key_words) (runs text)) ∧
  cat (runs text) = text.
Proof.
  split; [|apply cat_runs]. unfold emphasize_key_points.
  rewrite <- (cat_runs text) at 1.
  apply emphasize_fold;
    [apply key_words_ok | apply key_words_distinct | apply tiled_runs].
Qed.

End KeyPoints.

(** C6: the code loses the case of the occurrence.  The keyword "Key" in
    "A Key point" comes back as "**key**", where the occurrence kept as it
    was written between the markers is "**Key**"; the text around it is
    unchanged. *)
Theorem key_points_lose_the_case :
  Summarizer.emphasize_key_points "A Key point" = "A **key** point" ∧
  cat (map (mark Summarizer.key_words) (runs "A Key point"))
  = "A **key** point" ∧
  cat (map (mark_kept Summarizer.key_words) (runs "A Key point"))
  = "A **Key** point".
Proof.
  split; [|split; by vm_compute].
  by rewrite (proj1 (emphasize_key_points_by_runs "A Key point")).
Qed.

(** ** Length bounds *)

(** C7: the bounds are (10,50) for Short, (50,150) for Medium and (100,300)
    for Long, and the minimum and the maximum both grow strictly along
    Short < Medium < Long. *)
Theorem length_bounds_table_and_order :
  length_bounds App.Short = (10, 50)%Z ∧
  length_bounds App.Medium = (50, 150)%Z ∧
  length_bounds App.Long = (100, 300)%Z ∧
  ((length_bounds App.Short).1 < (length_bounds App.Medium).1
   < (length_bounds App.Long).1)%Z ∧
  ((length_bounds App.Short).2 < (length_bounds App.Medium).2
   < (length_bounds App.Long).2)%Z.
Proof. repeat split; reflexivity. Qed.

(** the order, for any two settings *)
Lemma length_bounds_monotone (a b : App.Length) :
  App.rank a < App.rank b →
  ((length_bounds a).1 < (length_bounds b).1)%Z ∧
  ((length_bounds a).2 < (length_bounds b).2)%Z.
Proof. destruct a, b; cbn; intros H; try lia; by vm_compute. Qed.

(** the same bounds for the bare words, which the substring test accepts
    as well *)
Lemma length_params_of_words :
  Summarizer.get_length_params "Short" = (10, 50)%Z ∧
  Summarizer.get_length_params "Medium" = (50, 150)%Z ∧
  Summarizer.get_length_params "Long" = (100, 300)%Z.
Proof. repeat split; reflexivity. Qed.

(** ** The action items of the example *)

(** C4: post-processing the example under {Medium, Paragraph, ActionItems}
    gives a bulleted list under the header "**Action Items:**"; its one
    bullet is the span that the obligation patterns match in the text,
    "need to finalize" (the match of [[Nn]eed to \w+]); the first sentence
    is gone; nothing is logged and [self] is not touched. *)
Theorem action_items_example (self : Summarizer.Self) :
  Summarizer.post_process_summary decision_text action_config self
  = (Return ("**Action Items:**" +:+ Summarizer.newline +:+
             Summarizer.bullet +:+ "need to finalize"),
     self, []) ∧
  Summarizer.find_each Summarizer.action_patterns decision_text
  = ["need to finalize"].
Proof. split; vm_compute; reflexivity. Qed.

(** ** The monad *)

Section MonadFacts.

Lemma try_except_of_return {S A} (m : M S A) h (s s' : S) a ev :
  m s = (Return a, s', ev) → try_except m h s = (Return a, s', ev).
Proof. unfold try_except. by intros ->. Qed.

End MonadFacts.

(** ** The driver [summarize] *)

Section Summarize.
Import Summarizer.

Variable pretrained : outcome (Pipeline * Tokenizer).

Lemma too_short_iff text :
  too_short text = true ↔ String.length (Py.strip text) < 50.
Proof.
  unfold too_short. rewrite orb_true_iff, Nat.ltb_lt. split; [|by right].
  intros [H|H]; [|done]. destruct text; [cbn; lia | discriminate].
Qed.

Lemma not_too_short text :
  50 ≤ String.length (Py.strip text) → too_short text = false.
Proof.
  intros H. destruct (too_short text) eqn:Hs; [|done].
  apply too_short_iff in Hs. lia.
Qed.

(** C9: a text whose stripped length is below 50 gets the fixed message;
    the run loads no model and calls none (its trace is empty) and leaves
    [self] as it was. *)
Theorem summarize_short_text (self : Self) (text : string)
    (config : gmap string string) :
  String.length (Py.strip text) < 50 →
  summarize pretrained text config self
  = (Return "Text too short to summarize effectively.", self, []).
Proof.
  intros H. unfold summarize. apply try_except_of_return.
  unfold summarize_try. by apply too_short_iff in H as ->.
Qed.

(** two failures that reach the handler of [summarize], as the caller sees
    them: the model that cannot be loaded, and the configuration without
    its length *)
Lemma summarize_without_model (self : Self) (text : string)
    (config : gmap string string) (e : exn) :
  50 ≤ String.length (Py.strip text) →
  summarizer self = None → pretrained = Raise e →
  result (summarize pretrained text config self)
  = Return "Summarization failed: Failed to load summarization model".
Proof.
  intros Hlong Hs He. unfold summarize, summarize_try.
  rewrite (not_too_short text Hlong). unfold reload, load_model. mrun.
  by rewrite Hs, He.
Qed.

Lemma summarize_without_length (self : Self) (text : string)
    (config : gmap string string) (p : Pipeline) :
  50 ≤ String.length (Py.strip text) →
  summarizer self = Some p → config !! "length" = None →
  result (summarize pretrained text config self)
  = Return "Summarization failed: 'length'".
Proof.
  intros Hlong Hs Hlen. unfold summarize, summarize_try, getitem.
  rewrite (not_too_short text Hlong). mrun. rewrite Hs. mrun.
  by rewrite Hs, Hlen.
Qed.

(** *** The steps of a run *)

Lemma reload_state self :
  ∃ ev, reload pretrained self = (Return (), loaded pretrained, ev).
Proof.
  unfold reload, load_model, loaded.
  destruct pretrained as [[p t]|e]; mrun; eauto.
Qed.

(** [chunk_text] never raises, and leaves [self] alone or reloads it *)
Lemma chunk_text_state self text n :
  ∃ chunks self' ev,
    chunk_text pretrained text n self = (Return chunks, self', ev) ∧
    (self' = self ∨ self' = loaded pretrained).
Proof.
  unfold chunk_text, chunk_text_try.
  destruct (tokenizer self) as [tk|] eqn:Htk.
  - mrun. rewrite Htk. mrun. rewrite Htk. mrun.
    destruct (chunk_with tk text n) as [chunks|e]; eauto 6.
  - destruct (reload_state self) as [ev Hev].
    mrun. rewrite Htk, Hev. mrun.
    destruct (tokenizer (loaded pretrained)) as [tk|]; mrun.
    + destruct (chunk_with tk text n) as [chunks|e]; eauto 6.
    + eauto 6.
Qed.

(** the body of the loop never raises and does not touch [self]: it adds
    the summary of the chunk when the call gives one, and nothing
    otherwise *)
Lemma summarize_chunk_kept self mn mx acc chunk :
  ∃ ev,
    summarize_chunk mn mx acc chunk self
    = (Return (acc ++ kept self mx mn [chunk]), self, ev).
Proof.
  unfold summarize_chunk, call_summarizer, kept, chunk_summary. mrun.
  destruct (summarizer self) as [p|]; mrun;
    [|rewrite (app_nil_r acc); by eexists].
  cbn [omap list_omap].
  destruct (run p chunk mx mn) as [[|first rest]|e];
    [|unfold getitem; destruct (first !! "summary_text") as [text|]|];
    rewrite ?(app_nil_r acc); by eexists.
Qed.

Lemma kept_cons self mx mn chunk rest :
  kept self mx mn (chunk :: rest)
  = kept self mx mn [chunk] ++ kept self mx mn rest.
Proof.
  unfold kept. destruct (summarizer self) as [p|]; [|done].
  cbn [omap list_omap]. by destruct (chunk_summary p mx mn chunk).
Qed.

(** the loop keeps the summaries of the chunks whose call gives one, in the
    order of the chunks *)
Lemma summarize_chunks_kept self mn mx chunks : ∀ acc,
  ∃ ev,
    summarize_chunks mn mx chunks acc self
    = (Return (acc ++ kept self mx mn chunks), self, ev).
Proof.
  induction chunks as [|chunk rest IH]; intros acc; cbn [summarize_chunks].
  - exists []. unfold kept.
    destruct (summarizer self); cbn [omap list_omap];
      by rewrite (app_nil_r acc).
  - destruct (summarize_chunk_kept self mn mx acc chunk) as [ev1 H1].
    destruct (IH (acc ++ kept self mx mn [chunk])) as [ev2 H2].
    exists (ev1 ++ ev2). unfold bind. rewrite H1, H2.
    by rewrite (kept_cons self mx mn chunk rest), List.app_assoc.
Qed.

(** a chunk whose call raises is skipped: the list of summaries stays as it
    is, the call and one warning are logged, and the loop goes on *)
Lemma summarize_chunk_fails self p mn mx acc chunk :
  summarizer self = Some p →
  (∃ e, run p chunk mx mn = Raise e) →
  summarize_chunk mn mx acc chunk self
  = (Return acc, self, failed_attempt p mx mn chunk).
Proof.
  intros Hp [e He]. unfold summarize_chunk, call_summarizer, failed_attempt,
    failure. mrun. rewrite Hp. mrun. by rewrite He.
Qed.

Lemma summarize_chunks_all_fail self p mn mx chunks acc :
  summarizer self = Some p →
  (∀ chunk, chunk ∈ chunks → ∃ e, run p chunk mx mn = Raise e) →
  summarize_chunks mn mx chunks acc self
  = (Return acc, self, flat_map (failed_attempt p mx mn) chunks).
Proof.
  intros Hp. induction chunks as [|chunk rest IH]; intros Hall;
    cbn [summarize_chunks flat_map]; [done|].
  unfold bind.
  rewrite (summarize_chunk_fails self p) by (try done; apply Hall; by left).
  rewrite IH; [done|]. intros c Hc. apply Hall. by right.
Qed.

(** post-processing never raises and does not touch [self] *)
Lemma post_process_result summary config (self : Self) :
  ∃ ev,
    post_process_summary summary config self
    = (Return (post_processed summary config), self, ev).
Proof.
  unfold post_process_summary, post_processed, post_process_try, getitem.
  destruct (config !! "style") as [style|]; [|by eexists].
  cbv zeta. destruct (config !! "focus") as [focus|]; by eexists.
Qed.

(** C10, amended: [summarize] never raises; what it returns is, in this
    order: the fixed message for a text that is too short; "Summarization
    failed: " with the message of the error when the model cannot be loaded
    or the configuration has no ['length'], the two failures that reach its
    handler; "Could not generate summary." when the loop keeps no summary
    of the chunks that [chunk_text] returned; and otherwise the summaries
    that the loop kept, joined by one space, as post-processing returns
    them, which is the summary as it stood when the configuration lacks
    ['style'] or ['focus']. *)
Theorem summarize_outcomes (self : Self) (text : string)
    (config : gmap string string) :
  result (summarize pretrained text config self)
  = Return
      (if too_short text then "Text too short to summarize effectively."
       else
         match summarizer (ready pretrained self), config !! "length" with
         | None, _ =>
             "Summarization failed: Failed to load summarization model"
         | Some _, None => "Summarization failed: 'length'"
         | Some _, Some length_setting =>
             match kept (state_after (chunking pretrained self text))
                        (get_length_params length_setting).2
                        (get_length_params length_setting).1
                        (chunks_of (chunking pretrained self text)) with
             | [] => "Could not generate summary."
             | summaries => post_processed (Py.join " " summaries) config
             end
         end).
Proof.
  unfold summarize, summarize_try, chunking, getitem.
  destruct (too_short text); [reflexivity|].
  destruct (reload_state self) as [ev0 H0].
  assert (∃ ev, (match summarizer self with
                 | Some _ => ret ()
                 | None => reload pretrained
                 end) self = (Return (), ready pretrained self, ev))
    as [ev1 H1].
  { unfold ready. destruct (summarizer self); [by eexists|].
    rewrite H0. by eexists. }
  clear H0. unfold ret in H1.
  mrun. rewrite H1. mrun.
  destruct (summarizer (ready pretrained self)) as [p|]; [|reflexivity].
  mrun. destruct (config !! "length") as [length_setting|]; [|reflexivity].
  mrun. destruct (get_length_params length_setting) as [mn mx].
  cbn [fst snd].
  destruct (chunk_text_state (ready pretrained self) (clean_text text) 1024)
    as (chunks & s2 & ev2 & H2 & _).
  unfold chunks_of, state_after. rewrite H2. cbn [result fst snd]. mrun.
  destruct (summarize_chunks_kept s2 mn mx chunks []) as [ev3 H3].
  rewrite H3, app_nil_l. mrun.
  destruct (kept s2 mx mn chunks) as [|s0 ss]; [reflexivity|].
  destruct (post_process_result (Py.join " " (s0 :: ss)) config s2)
    as [ev4 H4].
  mrun. by rewrite H4.
Qed.

(** *** When the model fails on every chunk *)

(** C1, amended: take a text of 50 characters or more once stripped and a
    configuration with its ['length'], and let the loop over the chunks
    have a model to call (the one in [self], or the one that the lazy load
    gave).  When the call of the model raises on every chunk of the run,
    [summarize] does not raise: it returns the fixed text "Could not
    generate summary.".  Every chunk is tried, in the order of the chunks;
    each failure is caught and logged by one [st.warning], "Error
    summarizing chunk: " with the message of the error, and its chunk is
    skipped; the loop logs nothing else, and no failure ends the run. *)
Theorem summarize_when_every_chunk_fails (self : Self) (text : string)
    (config : gmap string string) (length_setting : string) (p : Pipeline) :
  50 ≤ String.length (Py.strip text) →
  config !! "length" = Some length_setting →
  summarizer (state_after (chunking pretrained self text)) = Some p →
  (∀ chunk, chunk ∈ chunks_of (chunking pretrained self text) →
     ∃ e, run p chunk (get_length_params length_setting).2
                      (get_length_params length_setting).1 = Raise e) →
  summarize pretrained text config self
  = (Return "Could not generate summary.",
     state_after (chunking pretrained self text),
     lazy_load pretrained self
     ++ logged (chunking pretrained self text)
     ++ flat_map (failed_attempt p (get_length_params length_setting).2
                                   (get_length_params length_setting).1)
                 (chunks_of (chunking pretrained self text))).
Proof.
  intros Hlong Hlen Hp Hall.
  apply not_too_short in Hlong.
  destruct (get_length_params length_setting) as [mn mx] eqn:Hparams.
  cbn [fst snd] in *.
  destruct (chunk_text_state (ready pretrained self) (clean_text text) 1024)
    as (chunks & s2 & ev2 & H2 & Hs2).
  unfold chunking, chunks_of, logged, state_after in *. rewrite H2 in *.
  cbn [result fst snd] in *.
  assert (is_Some (summarizer (ready pretrained self))) as [p0 Hp0].
  { destruct Hs2 as [->| ->]; [by eexists|].
    unfold ready. destruct (summarizer self) eqn:Hs; by eexists. }
  pose proof (summarize_chunks_all_fail _ p mn mx chunks [] Hp Hall) as H3.
  assert ((match summarizer self with
           | Some _ => ret ()
           | None => reload pretrained
           end) self
          = (Return (), ready pretrained self, lazy_load pretrained self))
    as H1.
  { unfold ready, lazy_load, logged. destruct (summarizer self); [done|].
    by destruct (reload_state self) as [ev ->]. }
  unfold ret in H1.
  unfold summarize, summarize_try, getitem. rewrite Hlong. mrun.
  rewrite H1. mrun. rewrite Hp0, Hlen. mrun. rewrite Hparams. mrun.
  rewrite H2. mrun. rewrite H3.
  by rewrite !app_nil_l, !app_nil_r.
Qed.

End Summarize.

Lemma summarize_short_text_witness :
  String.length (Py.strip "  Thanks, all.  ") < 50 ∧
  Summarizer.summarize
    (Return (Sample.failing_pipeline, Sample.byte_tokenizer))
    "  Thanks, all.  " action_config Summarizer.init
  = (Return "Text too short to summarize effectively.", Summarizer.init, []).
Proof.
  split; [vm_compute; lia|].
  apply summarize_short_text. vm_compute. lia.
Defined.

(** C1, as stated, fails: with a model that is down and a text of one
    chunk, [summarize] returns "Could not generate summary."; it raises
    nothing, and no SummarizationFailed in particular. *)
Lemma all_chunks_fail_returns_normally :
  result (Summarizer.summarize
            (Return (Sample.failing_pipeline, Sample.byte_tokenizer))
            decision_text action_config Summarizer.init)
  = Return "Could not generate summary." ∧
  ¬ ∃ e, result (Summarizer.summarize
                   (Return (Sample.failing_pipeline, Sample.byte_tokenizer))
                   decision_text action_config Summarizer.init)
         = Raise e.
Proof.
  assert (result (Summarizer.summarize
            (Return (Sample.failing_pipeline, Sample.byte_tokenizer))
            decision_text action_config Summarizer.init)
          = Return "Could not generate summary.") as H by by vm_compute.
  split; [done|]. intros [e He]. congruence.
Qed.

Lemma summarize_when_every_chunk_fails_witness :
  Summarizer.summarize
    (Return (Sample.failing_pipeline, Sample.byte_tokenizer))
    decision_text action_config Summarizer.init
  = (Return "Could not generate summary.",
     loaded (Return (Sample.failing_pipeline, Sample.byte_tokenizer)),
     [LoadModel;
      ModelCall (Summarizer.clean_text decision_text) 150 50;
      StWarning "Error summarizing chunk: CUDA out of memory"]).
Proof.
  apply (summarize_when_every_chunk_fails
           (Return (Sample.failing_pipeline, Sample.byte_tokenizer))
           Summarizer.init decision_text action_config
           "Medium (3-5 sentences)" Sample.failing_pipeline).
  - vm_compute. lia.
  - vm_compute. reflexivity.
  - reflexivity.
  - intros chunk _. eexists. reflexivity.
Defined.

(** C10, as stated, fails: under a configuration without ['style'],
    post-processing fails inside the run (the warning is in the trace), and
    what comes back is the summary of the model as it is: neither a text
    that begins with "Summarization failed: " nor "Could not generate
    summary.". *)
Lemma caught_failure_returns_the_summary :
  StWarning "Error in post-processing: 'style'"
  ∈ logged (Summarizer.summarize
              (Return (Sample.echo_pipeline, Sample.byte_tokenizer))
              decision_text bare_config Summarizer.init) ∧
  result (Summarizer.summarize
            (Return (Sample.echo_pipeline, Sample.byte_tokenizer))
            decision_text bare_config Summarizer.init)
  = Return "This is a very impor" ∧
  Py.startswith "Summarization failed: " "This is a very impor" = false ∧
  "This is a very impor" ≠ "Could not generate summary.".
Proof.
  split; [|split; [|split]].
  - vm_compute. do 2 right. left.
  - vm_compute. reflexivity.
  - reflexivity.
  - discriminate.
Qed.

(** ** The transcription adapter *)

Section Transcribe.
Import Transcriber.

Variable path_exists : string → bool.
Variable pretrained : outcome WhisperModel.

(** C5, amended: when the path does not exist, or when it exists and the
    whisper model cannot be loaded, [transcribe] does not raise: it returns
    to its caller an ordinary string, "Transcription failed: " followed by
    the message of the error ("Audio file not found: " and the path, or
    "Failed to load Whisper model"); in both cases the error is reported
    with [st.error], "Error during transcription: " and the same message;
    [self] is left as it was, and the load that fails has reported its own
    error before. *)
Theorem transcribe_failures_are_strings (self : Self)
    (audio_file_path : string) (language : option string) (e : exn) :
  path_exists audio_file_path = false
  ∨ (model self = None ∧ pretrained = Raise e) →
  transcribe path_exists pretrained audio_file_path language self
  = if path_exists audio_file_path then
      (Return "Transcription failed: Failed to load Whisper model",
       self,
       [LoadModel;
        StError ("Error loading Whisper model: " +:+ str e);
        StError "Error during transcription: Failed to load Whisper model"])
    else
      (Return ("Transcription failed: Audio file not found: "
               +:+ audio_file_path),
       self,
       [StError ("Error during transcription: Audio file not found: "
                 +:+ audio_file_path)]).
Proof.
  unfold transcribe, transcribe_try.
  destruct (path_exists audio_file_path) eqn:Hp; [|reflexivity].
  intros [|[Hm He]]; [done|].
  unfold load_model. cbn [negb]. mrun. rewrite Hm, He.
  destruct self as [m]. cbn in Hm. by subst m.
Qed.

(** [transcribe] never raises *)
Lemma transcribe_never_raises (self : Self) (audio_file_path : string)
    (language : option string) :
  ∃ out,
    result (transcribe path_exists pretrained audio_file_path language self)
    = Return out.
Proof.
  unfold transcribe. mrun.
  match goal with
  | |- context [let (_, _) := ?m in _] =>
      destruct m as [[[a|e] s'] ev]; eauto
  end.
Qed.

End Transcribe.

(** C5, as stated, fails: for a path that does not exist and for a model
    that cannot be loaded, the caller gets a string and no exception. *)
Lemma transcribe_failure_returns_normally :
  result (Transcriber.transcribe (λ _, false)
            (Return (Sample.whisper_says "hello")) "missing.wav" None
            Transcriber.init)
  = Return "Transcription failed: Audio file not found: missing.wav" ∧
  result (Transcriber.transcribe (λ _, true)
            (Raise (Exn "RuntimeError" "no such model")) "talk.wav" None
            Transcriber.init)
  = Return "Transcription failed: Failed to load Whisper model".
Proof. split; reflexivity. Qed.

Lemma transcribe_failures_are_strings_witness :
  Transcriber.transcribe (λ _, false)
    (Return (Sample.whisper_says "hello")) "missing.wav" None
    Transcriber.init
  = (Return "Transcription failed: Audio file not found: missing.wav",
     Transcriber.init,
     [StError "Error during transcription: Audio file not found: missing.wav"])
  ∧
  Transcriber.transcribe (λ _, true)
    (Raise (Exn "RuntimeError" "no such model")) "talk.wav" None
    Transcriber.init
  = (Return "Transcription failed: Failed to load Whisper model",
     Transcriber.init,
     [LoadModel; StError "Error loading Whisper model: no such model";
      StError "Error during transcription: Failed to load Whisper model"]).
Proof.
  split.
  - apply (transcribe_failures_are_strings (λ _, false)
             (Return (Sample.whisper_says "hello")) Transcriber.init
             "missing.wav" None (Exn "Exception" "unused")).
    left. reflexivity.
  - apply (transcribe_failures_are_strings (λ _, true)
             (Raise (Exn "RuntimeError" "no such model")) Transcriber.init
             "talk.wav" None (Exn "RuntimeError" "no such model")).
    right. split; reflexivity.
Defined.

(** ** The chunker *)

Section Chunk.
Import Summarizer.

Variable pretrained : outcome (Pipeline * Tokenizer).

(** [chunk_text] with a tokenizer at hand is [chunk_with], and its fallback
    when that raises *)
Lemma chunk_text_result self tk text n :
  tokenizer_in_use pretrained self = Some tk →
  result (chunk_text pretrained text n self)
  = match chunk_with tk text n with
    | Return chunks => Return chunks
    | Raise _ => Return [Py.slice_to 2000 text]
    end.
Proof.
  intros Huse. unfold tokenizer_in_use in Huse.
  unfold chunk_text, chunk_text_try, reload, load_model. mrun.
  destruct (tokenizer self) as [tk0|] eqn:Htk.
  - injection Huse as ->. mrun. rewrite Htk. mrun.
    by destruct (chunk_with tk text n).
  - destruct pretrained as [[p t]|e]; [|discriminate].
    injection Huse as ->. mrun. cbn [tokenizer snd]. mrun.
    by destruct (chunk_with tk text n).
Qed.

Lemma chunk_with_single tk text max_length tokens :
  encode tk text = Return tokens →
  (Z.of_nat (length tokens) ≤ max_length)%Z →
  chunk_with tk text max_length = Return [text].
Proof.
  intros He Hle. unfold chunk_with, obind, tokens_fit. rewrite He.
  by apply Z.leb_le in Hle as ->.
Qed.

(** C8: a text with at most [max_length] tokens comes back as one chunk,
    the text itself; the list of chunks is not empty. *)
Theorem chunk_text_single (self : Self) (tk : Tokenizer) (text : string)
    (max_length : Z) (tokens : list nat) :
  tokenizer_in_use pretrained self = Some tk →
  encode tk text = Return tokens →
  (Z.of_nat (length tokens) ≤ max_length)%Z →
  ∃ chunks,
    result (chunk_text pretrained text max_length self) = Return chunks ∧
    chunks = [text] ∧ chunks ≠ [].
Proof.
  intros Huse He Hle. exists [text]. split; [|done].
  rewrite (chunk_text_result self tk) by done.
  by rewrite (chunk_with_single tk text max_length tokens).
Qed.

(** *** What the chunks keep of the text *)

Lemma chunk_step_keeps_text tk max_length chunks current sentence :
  total tk →
  fits tk max_length (closed sentence) →
  ∃ chunks' current',
    chunk_step tk max_length (chunks, current) sentence
    = Return (chunks', current') ∧
    squeeze (cat chunks' +:+ current')
    = squeeze (cat chunks +:+ current +:+ closed sentence).
Proof.
  intros Htotal Hfits. unfold chunk_step.
  destruct (Htotal (current +:+ sentence +:+ ". ")) as [tokens Ht].
  rewrite Ht. unfold obind.
  destruct (tokens_fit tokens max_length) eqn:Hfit.
  - eauto.
  - destruct current as [|c current]; cbn [Py.truthy].
    + rewrite app_empty_l in Ht. apply Hfits in Ht. congruence.
    + eexists _, _. split; [done|].
      unfold closed. rewrite cat_app, app_assoc, !squeeze_app. cbn [cat].
      by rewrite app_empty_r, squeeze_strip.
Qed.

Lemma chunk_loop_keeps_text tk max_length sentences :
  total tk →
  (∀ s, s ∈ sentences → fits tk max_length (closed s)) →
  ∀ chunks current,
  ∃ chunks' current',
    chunk_loop tk max_length sentences (chunks, current)
    = Return (chunks', current') ∧
    squeeze (cat chunks' +:+ current')
    = squeeze (cat chunks +:+ current +:+ cat (map closed sentences)).
Proof.
  intros Htotal.
  induction sentences as [|s rest IH]; intros Hfits chunks current.
  - eexists _, _. split; [done|]. cbn. by rewrite app_empty_r.
  - destruct (chunk_step_keeps_text tk max_length chunks current s Htotal)
      as (chunks1 & current1 & H1 & E1); [apply Hfits; left|].
    destruct (IH (λ x Hx, Hfits x (list_elem_of_further _ _ _ Hx))
                 chunks1 current1) as (chunks2 & current2 & H2 & E2).
    exists chunks2, current2. cbn [chunk_loop]. rewrite H1. cbn [obind].
    split; [done|]. rewrite E2. cbn [map cat].
    rewrite !squeeze_app in E1. rewrite !squeeze_app.
    by rewrite <- (app_assoc (squeeze (cat chunks1))), E1, !app_assoc.
Qed.

(** the chunks put together are, white space apart, the sentences of the
    text each closed by ". " *)
Lemma chunk_with_closes_each_sentence tk text max_length tokens :
  total tk →
  encode tk text = Return tokens →
  (max_length < Z.of_nat (length tokens))%Z →
  (∀ s, s ∈ Re.split sentence_end text → fits tk max_length (closed s)) →
  ∃ chunks,
    chunk_with tk text max_length = Return chunks ∧
    squeeze (cat chunks)
    = squeeze (cat (map closed (Re.split sentence_end text))).
Proof.
  intros Htotal He Hover Hfits.
  destruct (chunk_loop_keeps_text tk max_length _ Htotal Hfits [] "")
    as (chunks' & current' & Hloop & Hkeep).
  rewrite app_empty_l in Hkeep. cbn [cat] in Hkeep.
  rewrite app_empty_l in Hkeep. rewrite <- Hkeep.
  unfold chunk_with, obind, tokens_fit. rewrite He.
  apply Z.leb_gt in Hover as ->. rewrite Hloop.
  destruct current' as [|c current']; cbn [Py.truthy].
  - eexists. split; [done|]. by rewrite app_empty_r.
  - eexists. split; [done|]. rewrite cat_app, !squeeze_app. cbn [cat].
    by rewrite app_empty_r, squeeze_strip.
Qed.

(** C2, amended: when the text is over the budget, the tokenizer does not
    raise and no sentence alone is over the budget, the chunks put together
    are the text, white space and the terminators [.], [!] and [?] apart:
    the words of the text are all there, in their order, and nothing is
    added to them; the terminators are not kept as they were. *)
Theorem chunks_rebuild_the_sentences (self : Self) (tk : Tokenizer)
    (text : string) (max_length : Z) (tokens : list nat) :
  tokenizer_in_use pretrained self = Some tk →
  total tk →
  encode tk text = Return tokens →
  (max_length < Z.of_nat (length tokens))%Z →
  (∀ s, s ∈ Re.split sentence_end text → fits tk max_length (closed s)) →
  ∃ chunks,
    result (chunk_text pretrained text max_length self) = Return chunks ∧
    letters (cat chunks) = letters text.
Proof.
  intros Huse Htotal He Hover Hfits.
  destruct (chunk_with_closes_each_sentence tk text max_length tokens)
    as (chunks & Hwith & Hsq); [done..|].
  exists chunks. rewrite (chunk_text_result self tk), Hwith by done.
  split; [done|].
  rewrite <- letters_squeeze, Hsq, letters_squeeze, letters_closed.
  unfold sentence_end. by rewrite split_plus_cat, letters_without_terminators.
Qed.

(** C3: the code breaks the budget.  Take a text of two sentences, over the
    budget as a whole, whose first sentence fits and whose second does not
    fit behind the first: the second sentence becomes a chunk as it is,
    without a check and without truncation, whatever its number of
    tokens. *)
Theorem long_sentence_after_short_stays_whole (self : Self) (tk : Tokenizer)
    (text : string) (max_length : Z) (s1 s2 : string)
    (tokens tokens1 tokens12 : list nat) :
  tokenizer_in_use pretrained self = Some tk →
  Re.split sentence_end text = [s1; s2] →
  encode tk text = Return tokens →
  tokens_fit tokens max_length = false →
  encode tk (closed s1) = Return tokens1 →
  tokens_fit tokens1 max_length = true →
  encode tk (closed s1 +:+ closed s2) = Return tokens12 →
  tokens_fit tokens12 max_length = false →
  over_budget tk max_length (Py.strip (closed s2)) →
  ∃ chunks chunk,
    result (chunk_text pretrained text max_length self) = Return chunks ∧
    chunks = [Py.strip (closed s1); Py.strip (closed s2)] ∧
    chunk ∈ chunks ∧ over_budget tk max_length chunk.
Proof.
  intros Huse Hsplit He Hover H1 Hfit1 H12 Hfit12 Hbig.
  exists [Py.strip (closed s1); Py.strip (closed s2)], (Py.strip (closed s2)).
  split; [|split; [done|split; [set_solver|done]]].
  rewrite (chunk_text_result self tk) by done.
  unfold chunk_with, obind. rewrite He, Hover, Hsplit.
  cbn [chunk_loop]. unfold chunk_step at 1. rewrite app_empty_l.
  fold (closed s1). rewrite H1. cbn [obind]. rewrite Hfit1. cbn [obind].
  unfold chunk_step. fold (closed s2). rewrite H12. cbn [obind].
  rewrite Hfit12, closed_truthy. cbn [obind]. by rewrite closed_truthy.
Qed.

End Chunk.

Lemma chunk_text_single_witness :
  ∃ chunks,
    result (Summarizer.chunk_text
              (Return (Sample.echo_pipeline, Sample.byte_tokenizer))
              "Hi! Yo?" 9 Summarizer.init) = Return chunks ∧
    chunks = ["Hi! Yo?"] ∧ chunks ≠ [].
Proof.
  apply (chunk_text_single
           (Return (Sample.echo_pipeline, Sample.byte_tokenizer))
           Summarizer.init Sample.byte_tokenizer "Hi! Yo?" 9
           [0; 75; 108; 36; 35; 92; 114; 66; 2]).
  - reflexivity.
  - reflexivity.
  - vm_compute. discriminate.
Defined.

(** C2, as stated, fails: "Hi! Yo" under a budget of 7 tokens gives two
    chunks, none of them truncated, that together read "Hi.Yo." and not
    "Hi!Yo", white space apart. *)
Lemma chunks_rewrite_terminators :
  result (Summarizer.chunk_text
            (Return (Sample.echo_pipeline, Sample.byte_tokenizer))
            "Hi! Yo" 7 Summarizer.init)
  = Return ["Hi."; "Yo."] ∧
  squeeze (cat ["Hi."; "Yo."]) ≠ squeeze "Hi! Yo".
Proof. split; [reflexivity|]. vm_compute. discriminate. Qed.

Lemma chunks_rebuild_the_sentences_witness :
  ∃ chunks,
    result (Summarizer.chunk_text
              (Return (Sample.echo_pipeline, Sample.byte_tokenizer))
              "Hi! Yo" 7 Summarizer.init) = Return chunks ∧
    letters (cat chunks) = "HiYo".
Proof.
  apply (chunks_rebuild_the_sentences
           (Return (Sample.echo_pipeline, Sample.byte_tokenizer))
           Summarizer.init Sample.byte_tokenizer "Hi! Yo" 7
           (0 :: Sample.tokens_of "Hi! Yo" ++ [2])).
  - reflexivity.
  - intros s. eexists. reflexivity.
  - reflexivity.
  - vm_compute. reflexivity.
  - intros s Hs tokens Htokens.
    vm_compute in Hs. inversion Hs as [|? ? ? Hs1]; subst.
    { injection Htokens as <-. reflexivity. }
    inversion Hs1 as [|? ? ? Hs2]; subst.
    { injection Htokens as <-. reflexivity. }
    inversion Hs2.
Defined.

Lemma long_sentence_after_short_stays_whole_witness :
  ∃ chunks chunk,
    result (Summarizer.chunk_text
              (Return (Sample.echo_pipeline, Sample.byte_tokenizer))
              "Hi. Abcdefghijkl" 8 Summarizer.init) = Return chunks ∧
    chunks = ["Hi."; "Abcdefghijkl."] ∧
    chunk ∈ chunks ∧ over_budget Sample.byte_tokenizer 8 chunk.
Proof.
  apply (long_sentence_after_short_stays_whole
           (Return (Sample.echo_pipeline, Sample.byte_tokenizer))
           Summarizer.init Sample.byte_tokenizer "Hi. Abcdefghijkl" 8
           "Hi" " Abcdefghijkl"
           (0 :: Sample.tokens_of "Hi. Abcdefghijkl" ++ [2])
           (0 :: Sample.tokens_of "Hi. " ++ [2])
           (0 :: Sample.tokens_of "Hi.  Abcdefghijkl. " ++ [2])).
  - reflexivity.
  - reflexivity.
  - reflexivity.
  - reflexivity.
  - reflexivity.
  - reflexivity.
  - reflexivity.
  - reflexivity.
  - eexists. split; [reflexivity|]. vm_compute. reflexivity.
Defined.

(** * Further properties *)

(** ** The matcher in general *)

Section Matcher.

(** a match is a head of the subject *)
Lemma match_at_prefix pat : ∀ prev s w g,
  Re.match_at pat prev s = Some (w, g) → ∃ rest, s = w +:+ rest.
Proof.
  induction pat as [|it pat IH]; intros prev s w g.
  - intros [= <- <-]. by exists s.
  - destruct it as [p|p|p|]; cbn [Re.match_at].
    + destruct s as [|c s]; [done|]. destruct (p c); [|done].
      destruct (Re.match_at pat (Some c) s) as [[w' g']|] eqn:Hm; [|done].
      intros [= <- <-]. destruct (IH _ _ _ _ Hm) as [rest ->]. by exists rest.
    + destruct s as [|c s]; [done|]. destruct (p c); [|done].
      destruct (Re.match_at pat (Some c) s) as [[w' g']|] eqn:Hm; [|done].
      intros [= <- <-]. destruct (IH _ _ _ _ Hm) as [rest ->]. by exists rest.
    + revert w g. induction s as [|c s IHs]; intros w g; [done|].
      destruct (p c); [|done].
      destruct ((fix more (s0 : string) : option Re.found := _) s)
        as [[w' g']|] eqn:Hmore.
      * intros [= <- <-]. destruct (IHs _ _ eq_refl) as [rest ->].
        by exists rest.
      * destruct (Re.match_at pat (Some c) s) as [[w' g']|] eqn:Hm; [|done].
        intros [= <- <-]. destruct (IH _ _ _ _ Hm) as [rest ->].
        by exists rest.
    + destruct (Re.boundary prev s); [|done]. apply IH.
Qed.

(** a scan goes through the whole subject, in order *)
Lemma scan_spell pat s : ∀ prev w rest,
  s = w +:+ rest →
  spell (Re.scan pat prev s (String.length w)) = rest.
Proof.
  induction s as [|c s IH]; intros prev w rest Hs.
  - destruct w; [|by rewrite app_cons in Hs].
    rewrite app_empty_l in Hs. subst rest. cbn.
    destruct (Re.match_at pat prev "") as [[w g]|] eqn:Hm; [|done].
    apply match_at_prefix in Hm as [rest Hrest].
    destruct w; [done|by rewrite app_cons in Hrest].
  - destruct w as [|d w].
    + rewrite app_empty_l in Hs. subst rest. cbn [String.length Re.scan].
      destruct (Re.match_at pat prev (String c s)) as [[w g]|] eqn:Hm.
      * apply match_at_prefix in Hm as [rest Hrest].
        destruct w as [|d w]; cbn [String.length spell].
        { rewrite app_empty_l. f_equal. by apply (IH _ ""). }
        rewrite app_cons in Hrest. injection Hrest as <- ->.
        rewrite app_cons. f_equal. f_equal. by apply IH.
      * cbn [spell]. f_equal. by apply (IH _ "").
    + rewrite app_cons in Hs. injection Hs as <- ->.
      cbn [String.length Re.scan]. by apply IH.
Qed.

Lemma pieces_spell pat s : spell (Re.pieces pat s) = s.
Proof. by apply (scan_spell pat s None ""). Qed.

Lemma contains_app needle : ∀ a b,
  Py.contains needle (a +:+ needle +:+ b) = true.
Proof.
  assert (∀ b, Py.startswith needle (needle +:+ b) = true) as Hstart.
  { induction needle as [|c n IH]; intros b; [done|].
    rewrite app_cons. cbn. by rewrite Ascii.eqb_refl, IH. }
  induction a as [|c a IH]; intros b.
  - rewrite app_empty_l. specialize (Hstart b).
    destruct (needle +:+ b); cbn [Py.contains]; by rewrite Hstart.
  - rewrite app_cons. cbn [Py.contains]. by rewrite IH, orb_true_r.
Qed.

Lemma wholes_spell ps w :
  w ∈ Re.wholes ps → ∃ a b, spell ps = a +:+ w +:+ b.
Proof.
  induction ps as [|[c|w' g] ps IH]; cbn [Re.wholes spell].
  - by intros ?%elem_of_nil.
  - intros (a & b & ->)%IH. by exists (String c a), b.
  - intros [->|(a & b & ->)%IH]%elem_of_cons.
    + by exists "", (spell ps).
    + exists (w' +:+ a), b. by rewrite app_assoc.
Qed.

(** what [re.findall] finds is in the text *)
Lemma findall_contains pat s w :
  w ∈ Re.findall pat s → Py.contains w s = true.
Proof.
  intros (a & b & Hs)%wholes_spell. rewrite pieces_spell in Hs.
  rewrite Hs. apply contains_app.
Qed.

(** a literal pattern matches itself, where the subject starts with it *)
Lemma match_lit t : ∀ prev s,
  Re.match_at (Re.lit t) prev s
  = if Py.startswith t s then Some (t, []) else None.
Proof.
  induction t as [|a t IH]; intros prev s; [by destruct s|].
  cbn [Re.lit Re.match_at Py.startswith]. destruct s as [|c s]; [done|].
  unfold Re.same. rewrite (Ascii.eqb_sym c a).
  destruct (Ascii.eqb a c) eqn:Hac; [|done].
  apply Ascii.eqb_eq in Hac as <-. rewrite IH.
  by destruct (Py.startswith t s).
Qed.

End Matcher.

(** ** Action items and decisions *)

Section Extraction.
Import Summarizer.

Lemma find_each_contains patterns text : ∀ found item,
  (∀ x, x ∈ found → Py.contains x text = true) →
  item ∈ foldl (λ found pattern, found ++ Re.findall pattern text)
               found patterns →
  Py.contains item text = true.
Proof.
  induction patterns as [|pat patterns IH]; intros found item Hfound;
    cbn [foldl]; [by apply Hfound|].
  apply IH. intros x [?|?]%elem_of_app; [by apply Hfound|].
  by eapply findall_contains.
Qed.

(** X1: whatever the extraction of action items or of decisions lists is a
    span of the text, letter for letter. *)
Theorem extracted_items_are_spans (text item : string) :
  item ∈ find_each action_patterns text
  ∨ item ∈ find_each decision_patterns text →
  Py.contains item text = true.
Proof.
  unfold find_each.
  intros [H|H]; eapply find_each_contains in H; try done;
    by intros ? ?%elem_of_nil.
Qed.

End Extraction.

Lemma extracted_items_are_spans_witness :
  Py.contains "will meet" "We will meet. They agreed to sign." = true ∧
  Py.contains "agreed to sign" "We will meet. They agreed to sign." = true.
Proof.
  split; apply extracted_items_are_spans.
  - left. vm_compute. left.
  - right. vm_compute. left.
Defined.

(** ** The chunker, whatever the tokenizer does *)

Section ChunkAlways.
Import Summarizer.

Variable pretrained : outcome (Pipeline * Tokenizer).

Lemma chunk_step_progress tk n chunks current s chunks' current' :
  chunk_step tk n (chunks, current) s = Return (chunks', current') →
  (chunks' ≠ [] ∨ current' ≠ "") ∧ (chunks ≠ [] → chunks' ≠ []).
Proof.
  unfold chunk_step, obind.
  destruct (encode tk _) as [tokens|e]; [|done].
  destruct (tokens_fit tokens n).
  - intros [= <- <-]. split; [right|done]. by destruct current, s.
  - destruct (Py.truthy current).
    + intros [= <- <-]. split; [left|intros _]; by destruct chunks.
    + destruct (encode_truncated tk s n) as [ids|e]; [|done].
      destruct (decode tk ids) as [truncated|e]; [|done].
      intros [= <- <-]. split; [left|intros _]; by destruct chunks.
Qed.

Lemma chunk_loop_progress tk n sentences : ∀ chunks current chunks' current',
  chunk_loop tk n sentences (chunks, current) = Return (chunks', current') →
  sentences ≠ [] ∨ chunks ≠ [] ∨ current ≠ "" →
  chunks' ≠ [] ∨ current' ≠ "".
Proof.
  induction sentences as [|s rest IH]; intros chunks current chunks' current'.
  - intros [= <- <-] [?|?]; done.
  - cbn [chunk_loop]. unfold obind.
    destruct (chunk_step tk n (chunks, current) s) as [[chunks1 current1]|e]
      eqn:Hstep; [|done].
    intros Hloop _. apply chunk_step_progress in Hstep as [Hp _].
    eapply IH; [done|]. by right.
Qed.

Lemma chunk_with_nonempty tk text n chunks :
  chunk_with tk text n = Return chunks → chunks ≠ [].
Proof.
  unfold chunk_with, obind.
  destruct (encode tk text) as [tokens|e]; [|done].
  destruct (tokens_fit tokens n); [by intros [= <-]|].
  destruct (chunk_loop tk n _ _) as [[chunks' current']|e] eqn:Hloop; [|done].
  apply chunk_loop_progress in Hloop.
  - destruct current' as [|c current']; cbn [Py.truthy]; intros [= <-].
    + by destruct Hloop.
    + by destruct chunks'.
  - left. unfold Re.split. by destruct (Re.fragments _).
Qed.

(** X2: [chunk_text] never raises and never returns an empty list, whatever
    the text, the budget, the state of [self] and the tokenizer. *)
Theorem chunk_text_gives_a_chunk (self : Self) (text : string) (n : Z) :
  ∃ chunks,
    result (chunk_text pretrained text n self) = Return chunks ∧ chunks ≠ [].
Proof.
  unfold chunk_text, chunk_text_try, reload, load_model. mrun.
  destruct (tokenizer self) as [tk|] eqn:Htk; mrun.
  - rewrite Htk. mrun.
    destruct (chunk_with tk text n) as [chunks|e] eqn:Hc; [|by eexists].
    exists chunks. split; [done|]. by eapply chunk_with_nonempty.
  - destruct pretrained as [[p tk]|e]; mrun; cbn [tokenizer snd]; mrun;
      [|by eexists].
    destruct (chunk_with tk text n) as [chunks|e] eqn:Hc; [|by eexists].
    exists chunks. split; [done|]. by eapply chunk_with_nonempty.
Qed.

Lemma slice_to_length n : ∀ s, String.length (Py.slice_to n s) ≤ n.
Proof.
  induction n as [|n IH]; intros [|c s]; cbn; try lia.
  specialize (IH s). lia.
Qed.

(** X3: without a tokenizer, or when the tokenizer raises on the text,
    [chunk_text] falls back to one chunk, the first 2000 characters of the
    text. *)
Theorem chunk_text_falls_back (self : Self) (text : string) (n : Z) :
  tokenizer_in_use pretrained self = None
  ∨ (∃ tk e, tokenizer_in_use pretrained self = Some tk
             ∧ encode tk text = Raise e) →
  result (chunk_text pretrained text n self)
  = Return [Py.slice_to 2000 text] ∧
  String.length (Py.slice_to 2000 text) ≤ 2000.
Proof.
  intros H. split; [|apply slice_to_length].
  destruct H as [Hnone|(tk & e & Huse & He)].
  - unfold tokenizer_in_use in Hnone.
    unfold chunk_text, chunk_text_try, reload, load_model. mrun.
    destruct (tokenizer self); [done|].
    by destruct pretrained as [[p tk]|e].
  - rewrite (chunk_text_result pretrained self tk) by done.
    unfold chunk_with, obind. by rewrite He.
Qed.

End ChunkAlways.

Lemma chunk_text_falls_back_witness :
  result (Summarizer.chunk_text (Raise (Exn "OSError" "no network"))
            "Hello there." 1024 Summarizer.init)
  = Return ["Hello there."].
Proof.
  apply (chunk_text_falls_back (Raise (Exn "OSError" "no network"))
           Summarizer.init "Hello there." 1024).
  left. reflexivity.
Defined.

(** ** The loop over the chunks *)

Section Chunks.
Import Summarizer.

Variable pretrained : outcome (Pipeline * Tokenizer).

Lemma model_calls_app ev1 ev2 :
  model_calls (ev1 ++ ev2) = model_calls ev1 ++ model_calls ev2.
Proof. apply List.filter_app. Qed.

Lemma summarize_chunk_with self p mn mx acc chunk :
  summarizer self = Some p →
  ∃ ev,
    summarize_chunk mn mx acc chunk self
    = (Return (acc ++ option_list (chunk_summary p mx mn chunk)), self, ev) ∧
    model_calls ev = [ModelCall chunk mx mn].
Proof.
  intros Hp. unfold summarize_chunk, call_summarizer, chunk_summary. mrun.
  rewrite Hp. mrun.
  destruct (run p chunk mx mn) as [[|first rest]|e];
    [|unfold getitem; destruct (first !! "summary_text") as [text|]|];
    cbn [option_list]; rewrite ?app_nil_r; eexists; split; reflexivity.
Qed.

Lemma summarize_chunks_calls self p mn mx chunks : ∀ acc,
  summarizer self = Some p →
  ∃ ev,
    summarize_chunks mn mx chunks acc self
    = (Return (acc ++ omap (chunk_summary p mx mn) chunks), self, ev) ∧
    model_calls ev = map (λ chunk, ModelCall chunk mx mn) chunks.
Proof.
  intros acc Hp. revert acc.
  induction chunks as [|chunk rest IH]; intros acc; cbn [summarize_chunks].
  - exists []. by rewrite app_nil_r.
  - destruct (summarize_chunk_with self p mn mx acc chunk Hp)
      as (ev1 & H1 & C1).
    destruct (IH (acc ++ option_list (chunk_summary p mx mn chunk)))
      as (ev2 & H2 & C2).
    exists (ev1 ++ ev2). unfold bind. rewrite H1, H2. split.
    + cbn [omap list_omap].
      destruct (chunk_summary p mx mn chunk); cbn [option_list].
      * by rewrite <- List.app_assoc.
      * by rewrite app_nil_r.
    + by rewrite model_calls_app, C1, C2.
Qed.

(** X4: the loop over the chunks calls the model once for each chunk, in the
    order of the chunks and with the bounds it was given, and keeps the
    summaries of the calls that gave one, in that order; a chunk whose call
    raises, or gives nothing, is left out; the loop does not raise and does
    not touch [self]. *)
Theorem summaries_follow_the_chunks (self : Self) (p : Pipeline)
    (mn mx : Z) (chunks acc : list string) :
  summarizer self = Some p →
  result (summarize_chunks mn mx chunks acc self)
  = Return (acc ++ omap (chunk_summary p mx mn) chunks) ∧
  state_after (summarize_chunks mn mx chunks acc self) = self ∧
  model_calls (logged (summarize_chunks mn mx chunks acc self))
  = map (λ chunk, ModelCall chunk mx mn) chunks.
Proof.
  intros Hp.
  destruct (summarize_chunks_calls self p mn mx chunks acc Hp)
    as (ev & H & Hcalls).
  unfold state_after, logged. by rewrite H.
Qed.




End Chunks.

Lemma summaries_follow_the_chunks_witness :
  result (Summarizer.summarize_chunks 50 150 ["One chunk"; "Another chunk"] []
            {| Summarizer.summarizer := Some Sample.echo_pipeline;
               Summarizer.tokenizer := None |})
  = Return ["One chunk"; "Another chunk"] ∧
  state_after
    (Summarizer.summarize_chunks 50 150 ["One chunk"; "Another chunk"] []
       {| Summarizer.summarizer := Some Sample.echo_pipeline;
          Summarizer.tokenizer := None |})
  = {| Summarizer.summarizer := Some Sample.echo_pipeline;
       Summarizer.tokenizer := None |} ∧
  model_calls
    (logged
       (Summarizer.summarize_chunks 50 150 ["One chunk"; "Another chunk"] []
          {| Summarizer.summarizer := Some Sample.echo_pipeline;
             Summarizer.tokenizer := None |}))
  = [ModelCall "One chunk" 150 50; ModelCall "Another chunk" 150 50].
Proof.
  apply (summaries_follow_the_chunks
           {| Summarizer.summarizer := Some Sample.echo_pipeline;
              Summarizer.tokenizer := None |}
           Sample.echo_pipeline 50 150 ["One chunk"; "Another chunk"] []).
  reflexivity.
Defined.


(** ** Cleaning the text *)

Section Clean.
Import Summarizer.


Lemma allb_impl (Q R : ascii → bool) (s : string) :
  (∀ c, Q c = true → R c = true) → allb Q s = true → allb R s = true.
Proof.
  intros H. induction s as [|c s IH]; [done|]. cbn.
  intros [Hc Hs]%andb_true_iff. by rewrite (H c Hc), IH.
Qed.
















End Clean.

(** ** Post-processing *)

Section PostProcess.
Import Summarizer.

(** X7: whatever the length setting reads, the bounds are those of Short,
    of Medium or of Long, and the minimum is positive and below the
    maximum. *)
Theorem length_params_always (length_setting : string) :
  (get_length_params length_setting = (10, 50)%Z
   ∨ get_length_params length_setting = (50, 150)%Z
   ∨ get_length_params length_setting = (100, 300)%Z) ∧
  (0 < (get_length_params length_setting).1
     < (get_length_params length_setting).2)%Z.
Proof.
  unfold get_length_params.
  destruct (Py.contains "Short" length_setting);
    destruct (Py.contains "Medium" length_setting);
    destruct (Py.contains "Long" length_setting);
    cbn; repeat split; auto; lia.
Qed.

Lemma join_empty sep parts :
  (∀ p, p ∈ parts → Py.truthy p = true) →
  Py.join sep parts = "" → parts = [].
Proof.
  destruct parts as [|p [|q ps]]; [done|..]; intros H;
    pose proof (H p (list_elem_of_here _ _)); destruct p; try done.
Qed.

Lemma bullets_of_empty sentences :
  bullets_of sentences = [] ↔
  ∀ s, s ∈ sentences → String.length (Py.strip s) ≤ 10.
Proof.
  induction sentences as [|s rest IH]; cbn [bullets_of].
  - split; [|done]. by intros _ s ?%elem_of_nil.
  - destruct (Py.truthy (Py.strip s) && (10 <? String.length (Py.strip s)))
      eqn:Hkeep.
    + split; [done|]. intros H. specialize (H s (list_elem_of_here _ _)).
      apply andb_true_iff in Hkeep as [_ Hlen%Nat.ltb_lt]. lia.
    + rewrite IH. split.
      * intros H x [->|?]%elem_of_cons; [|by apply H].
        apply andb_false_iff in Hkeep as [Ht|Hlen%Nat.ltb_ge]; [|done].
        destruct (Py.strip s); [cbn; lia|done].
      * intros H x Hx. apply H. by right.
Qed.

Lemma bullets_truthy sentences b :
  b ∈ bullets_of sentences → Py.truthy b = true.
Proof.
  induction sentences as [|s rest IH]; cbn [bullets_of];
    [by intros ?%elem_of_nil|].
  destruct (_ && _); [|done]. by intros [->|?]%elem_of_cons; [|apply IH].
Qed.

(** X8: the bullet style returns the empty text exactly when no sentence of
    the summary has more than 10 characters, white space at its ends
    apart: such a summary loses all of its text. *)
Theorem bullets_can_be_empty (text : string) :
  format_as_bullets text = "" ↔
  ∀ s, s ∈ Re.split sentence_end text → String.length (Py.strip s) ≤ 10.
Proof.
  unfold format_as_bullets. rewrite <- bullets_of_empty. split.
  - apply join_empty. apply bullets_truthy.
  - by intros ->.
Qed.

(** X9: post-processing under a configuration that lacks a key does not
    raise: without ['style'] the summary comes back as it was, without
    ['focus'] it comes back in its style and without any focus, each time
    with a warning that names the key. *)
Theorem post_process_without_a_key (summary : string)
    (config : gmap string string) (self : Self) :
  config !! "style" = None ∨ config !! "focus" = None →
  post_process_summary summary config self
  = match config !! "style" with
    | None =>
        (Return summary, self,
         [StWarning "Error in post-processing: 'style'"])
    | Some style =>
        (Return (apply_style style summary), self,
         [StWarning "Error in post-processing: 'focus'"])
    end.
Proof.
  unfold post_process_summary, post_process_try, getitem.
  destruct (config !! "style") as [style|]; [|done].
  intros [H|H]; [done|by rewrite H].
Qed.

Lemma summary_config_style c :
  App.summary_config c !! "style" = Some (App.style_option (App.style c)).
Proof.
  unfold App.summary_config.
  rewrite lookup_insert_ne by done. by rewrite lookup_insert_eq.
Qed.

Lemma summary_config_focus c :
  App.summary_config c !! "focus" = Some (App.focus_option (App.focus c)).
Proof.
  unfold App.summary_config.
  do 2 (rewrite lookup_insert_ne by done). by rewrite lookup_singleton_eq.
Qed.

Lemma apply_style_option s summary :
  apply_style (App.style_option s) summary = style_of s summary.
Proof. by destruct s. Qed.

Lemma apply_focus_option f summary :
  apply_focus (App.focus_option f) summary = focus_of f summary.
Proof. by destruct f. Qed.

(** X10: every choice of the sidebar is known to post-processing: the style
    is applied first, the focus to the text in its style, and nothing is
    logged. *)
Theorem post_process_knows_the_options (c : App.SummaryConfig)
    (summary : string) (self : Self) :
  post_process_summary summary (App.summary_config c) self
  = (Return (focus_of (App.focus c) (style_of (App.style c) summary)),
     self, []).
Proof.
  unfold post_process_summary, post_process_try, getitem.
  rewrite summary_config_style, summary_config_focus. cbv zeta.
  by rewrite apply_style_option, apply_focus_option.
Qed.

(** X11: a text none of whose whole words is a keyword, whatever the case
    of its letters, comes back from [emphasize_key_points] as it was. *)
Theorem no_keyword_no_change (text : string) :
  (∀ r kw, r ∈ runs text → kw ∈ key_words → ci_eq r kw = false) →
  emphasize_key_points text = text.
Proof.
  intros H. destruct (emphasize_key_points_by_runs text) as [-> Hcat].
  rewrite <- Hcat at 2. f_equal.
  rewrite <- (map_id (runs text)) at 2. apply map_ext_in.
  intros r Hr%list_elem_of_In. apply mark_other. intros kw Hkw. by apply H.
Qed.

End PostProcess.

Lemma bullets_can_be_empty_witness :
  Summarizer.format_as_bullets "Too short. Tiny! So?" = "".
Proof.
  apply bullets_can_be_empty. intros s Hs. vm_compute in Hs.
  repeat (apply elem_of_cons in Hs as [->|Hs]; [vm_compute; lia|]).
  by apply elem_of_nil in Hs.
Defined.

Lemma post_process_without_a_key_witness :
  Summarizer.post_process_summary "One. Two."
    {[ "length" := "Short"; "style" := "Executive Summary" ]} Summarizer.init
  = (Return (Summarizer.format_as_executive_summary "One. Two."),
     Summarizer.init, [StWarning "Error in post-processing: 'focus'"]).
Proof.
  exact (post_process_without_a_key "One. Two."
           {[ "length" := "Short"; "style" := "Executive Summary" ]}
           Summarizer.init (or_intror eq_refl)).
Defined.

Lemma no_keyword_no_change_witness :
  Summarizer.emphasize_key_points "Keys, not keywords." = "Keys, not keywords.".
Proof.
  apply no_keyword_no_change. intros r kw Hr Hkw.
  vm_compute in Hr. vm_compute in Hkw.
  repeat (apply elem_of_cons in Hr as [->|Hr];
          [repeat (apply elem_of_cons in Hkw as [->|Hkw]; [reflexivity|]);
           by apply elem_of_nil in Hkw|]).
  by apply elem_of_nil in Hr.
Defined.

(** ** The transcription adapter, in full *)

Section TranscribeRuns.
Import Transcriber.
Variable path_exists : string → bool.
Variable pretrained : outcome WhisperModel.

(** X12: what [transcribe] returns, for every path, language, object and
    load outcome: never an exception; the message for a missing file; the
    message for a model that cannot be loaded; "Transcription failed: "
    with the message of whisper's error, or of the [KeyError] when its
    result has no ['text']; the fixed text when the stripped transcript is
    empty; and the stripped transcript otherwise. *)
Theorem transcribe_outcomes (self : Self) (audio_file_path : string)
    (language : option string) :
  result (transcribe path_exists pretrained audio_file_path language self)
  = Return
      (if path_exists audio_file_path then
         match model_in_use pretrained self with
         | None => "Transcription failed: Failed to load Whisper model"
         | Some m => transcript_of (recognise m audio_file_path language)
         end
       else "Transcription failed: Audio file not found: "
            +:+ audio_file_path).
Proof.
  unfold transcribe, transcribe_try, load_model, model_in_use, transcript_of,
    getitem.
  destruct (path_exists audio_file_path); [|reflexivity].
  cbn [negb]. mrun.
  destruct (model self) as [m|] eqn:Hm; mrun.
  - rewrite Hm. mrun.
    destruct (recognise m audio_file_path language) as [d|e]; [|reflexivity].
    destruct (d !! "text") as [text|]; [|reflexivity].
    by destruct (Py.truthy (Py.strip text)).
  - destruct pretrained as [m|e]; mrun; cbn [model]; [|reflexivity].
    destruct (recognise m audio_file_path language) as [d|e]; [|reflexivity].
    destruct (d !! "text") as [text|]; [|reflexivity].
    by destruct (Py.truthy (Py.strip text)).
Qed.

(** X13: the whisper model is loaded lazily and kept: a run on a path that
    exists leaves in [self] the model it worked with, whatever happened
    afterwards, and loads a model only when [self] has none, once; a run
    on a missing path touches neither. *)
Theorem transcribe_keeps_the_model (self : Self) (audio_file_path : string)
    (language : option string) :
  state_after (transcribe path_exists pretrained audio_file_path language self)
  = (if path_exists audio_file_path
     then {| model := model_in_use pretrained self |}
     else self) ∧
  loads (logged (transcribe path_exists pretrained audio_file_path language
                   self))
  = (if path_exists audio_file_path
     then match model self with Some _ => [] | None => [LoadModel] end
     else []).
Proof.
  unfold transcribe, transcribe_try, load_model, model_in_use, getitem,
    state_after, logged.
  destruct (path_exists audio_file_path); [|done].
  cbn [negb]. mrun. destruct self as [[m|]]; cbn [model]; mrun.
  - destruct (recognise m audio_file_path language) as [d|e]; [|done].
    destruct (d !! "text") as [text|]; [|done].
    by destruct (Py.truthy (Py.strip text)).
  - destruct pretrained as [m|e]; mrun; cbn [model]; [|done].
    destruct (recognise m audio_file_path language) as [d|e]; [|done].
    destruct (d !! "text") as [text|]; [|done].
    by destruct (Py.truthy (Py.strip text)).
Qed.

End TranscribeRuns.

(** ** The audio processor *)

Section Audio.
Import AudioProcessor.
Context {Audio dB : Type}.
Variable pydub : Pydub Audio dB.

(** X14: [normalize_audio] never raises and does not touch [self]: when a
    step of the normalisation raises, the audio that came in is returned
    as it was, with one warning that carries the message of the error; when
    none does, nothing is logged. *)
Theorem normalize_audio_falls_back (audio : Audio) (self : Self) :
  normalize_audio pydub audio self
  = (Return (normalized_or_same pydub audio), self,
     match normalize_audio_try pydub audio with
     | Return _ => []
     | Raise e =>
         [StWarning ("Warning: Could not normalize audio: " +:+ str e)]
     end).
Proof.
  unfold normalize_audio, normalized_or_same. mrun.
  by destruct (normalize_audio_try pydub audio).
Qed.



End Audio.



(** ** The markup of the document *)

Section Markup.

Lemma unstar_cons new c d rest :
  unstar new (String c (String d rest))
  = if star c && star d then new +:+ unstar new rest
    else String c (unstar new (String d rest)).
Proof. reflexivity. Qed.

Lemma scan_stars new : ∀ n s prev,
  String.length s ≤ n →
  Re.replace [Re.RText new] (Re.scan (Re.lit "**") prev s 0) = unstar new s.
Proof.
  induction n as [|n IH]; intros [|c [|d rest]] prev Hn;
    cbn [String.length] in Hn; try lia; try reflexivity.
  - cbn. by destruct (Re.same "*" c).
  - rewrite unstar_cons. unfold star at 1 2.
    change (Re.scan (Re.lit "**") prev (String c (String d rest)) 0)
      with (match (if Re.same "*" c
                   then Re.eat c [] (if Re.same "*" d
                                     then Some (String d EmptyString, [])
                                     else None)
                   else None) with
            | Some (w, g) =>
                match String.length w with
                | 0 => Re.Hit w g :: Re.Lit c
                       :: Re.scan (Re.lit "**") (Some c) (String d rest) 0
                | S k => Re.Hit w g
                         :: Re.scan (Re.lit "**") (Some c) (String d rest) k
                end
            | None => Re.Lit c
                      :: Re.scan (Re.lit "**") (Some c) (String d rest) 0
            end).
    unfold Re.same.
    destruct (Ascii.eqb c "*"); cbn [andb];
      [destruct (Ascii.eqb d "*")|]; cbn [Re.eat Re.replace String.length].
    + change (Re.scan (Re.lit "**") (Some c) (String d rest) 1)
        with (Re.scan (Re.lit "**") (Some d) rest 0).
      rewrite IH by lia. cbn [Re.expand app]. by rewrite app_empty_r.
    + by rewrite IH by (cbn; lia).
    + by rewrite IH by (cbn; lia).
Qed.

Lemma replace_stars new s : PyStr.replace "**" new s = unstar new s.
Proof. by apply (scan_stars new (String.length s)). Qed.

(** a text that went through the replacement has no marker left *)
Lemma unstar_settled new : ∀ n s,
  String.length s ≤ n → unstar new (unstar "<b>" s) = unstar "<b>" s.
Proof.
  induction n as [|n IH]; intros [|c [|d rest]] Hn;
    cbn [String.length] in Hn; try lia; try reflexivity.
  rewrite unstar_cons. destruct (star c) eqn:Hc; cbn [andb];
    [destruct (star d) eqn:Hd|].
  - rewrite !app_cons, app_empty_l.
    change (unstar new (String "<" (String "b" (String ">" ?x))))
      with (String "<" (String "b" (unstar new (String ">" x)))).
    do 2 f_equal.
    assert (∀ x, unstar new (String ">" x) = String ">" (unstar new x))
      as -> by (by intros [|? ?]).
    f_equal. apply IH. lia.
  - assert (∀ x, star c && star d = false →
                 unstar new (String c (unstar "<b>" (String d x)))
                 = String c (unstar new (unstar "<b>" (String d x)))) as ->.
    { intros [|e x] Hcd.
      - change (unstar "<b>" (String d EmptyString))
          with (String d EmptyString).
        rewrite unstar_cons. by rewrite Hcd.
      - rewrite (unstar_cons "<b>" d e x), Hd. cbn [andb].
        rewrite unstar_cons. by rewrite Hcd. }
    + f_equal. apply IH. cbn. lia.
    + by rewrite Hd, andb_false_r.
  - assert (∀ y, unstar new (String c y) = String c (unstar new y)) as ->.
    { intros [|e y]; [done|]. rewrite unstar_cons. by rewrite Hc. }
    f_equal. apply IH. cbn. lia.
Qed.

End Markup.

(** X17: [format_text] turns every marker [**] into the opening tag, and none
    into the closing tag: the second [replace] finds no marker left.  One
    closing tag is added at the end when the text then has more opening
    than closing tags. *)
Theorem format_text_opens_only (text : string) :
  Pdf.format_text text
  = (if PyStr.count "</b>" (PyStr.replace "**" "<b>" text)
        <? PyStr.count "<b>" (PyStr.replace "**" "<b>" text)
     then PyStr.replace "**" "<b>" text +:+ "</b>"
     else PyStr.replace "**" "<b>" text) ∧
  PyStr.replace "**" "</b>" (PyStr.replace "**" "<b>" text)
  = PyStr.replace "**" "<b>" text.
Proof.
  assert (PyStr.replace "**" "</b>" (PyStr.replace "**" "<b>" text)
          = PyStr.replace "**" "<b>" text) as H.
  { rewrite !replace_stars.
    by apply (unstar_settled _ (String.length text)). }
  split; [|done]. unfold Pdf.format_text. cbv zeta. by rewrite H.
Qed.
